(** * MobotixControl: pan-tilt control and frame capture for a Mobotix camera

    A shallow embedding of [app/MobotixControl.py] and the properties of
    its two classes, [MobotixPT] (pan-tilt commands sent with curl) and
    [MobotixImager] (supervision of the capture process and conversion of
    the raw frames).

    Python [str] values are lists of code points, [bytes] values lists of
    byte values, dictionaries are [gmap]s, and every interaction with the
    outside (sub-processes, the clock, the file system, the log) is
    recorded in a trace by a small state-and-exception monad. *)

From Stdlib Require Import ZArith NArith Ascii String List.
From stdpp Require Import base decidable option list gmap strings.

Local Open Scope Z_scope.

(** ** Python strings *)

(** A [str] is a sequence of Unicode code points. *)
Definition pystr := list N.

(** String literals of the source, all ASCII. *)
Definition py (s : string) : pystr := N_of_ascii <$> list_ascii_of_string s.

(** [Py_UNICODE_ISSPACE]: the characters removed by [str.strip()] and
    matched by [\s] in a [str] pattern. *)
Definition py_isspace (c : N) : bool :=
  ((9 <=? c) && (c <=? 13) || (28 <=? c) && (c <=? 32) ||
   (c =? 133) || (c =? 160) || (c =? 5760) ||
   (8192 <=? c) && (c <=? 8202) || (c =? 8232) || (c =? 8233) ||
   (c =? 8239) || (c =? 8287) || (c =? 12288))%N.

Fixpoint lstrip (s : pystr) : pystr :=
  match s with
  | c :: s' => if py_isspace c then lstrip s' else s
  | [] => []
  end.

Definition rstrip (s : pystr) : pystr := reverse (lstrip (reverse s)).

(** [str.strip()] without argument. *)
Definition strip (s : pystr) : pystr := rstrip (lstrip s).

(** A text of white space only. *)
Definition whitespace (s : pystr) : Prop := Forall (λ c, py_isspace c = true) s.

(** Truth value of a [str]: the empty string is false. *)
Definition truthy (s : pystr) : bool :=
  match s with [] => false | _ => true end.

(** ** Exceptions and results *)

(** The exceptions the program raises or lets through.  [Exception] is
    the source's own [raise Exception("...")], [ExceptionFrom e] its
    [raise Exception(e)].  [KeyboardInterrupt] and [SystemExit] derive
    from [BaseException] only. *)
Inductive exn : Type :=
  | Exception (msg : pystr)
  | ExceptionFrom (e : exn)
  | TimeoutError
  | CalledProcessError (returncode : Z)
  | OSError (msg : pystr)
  | FileNotFoundError (filename : pystr)
  | KeyError (key : pystr)
  | AttributeError (msg : pystr)
  | ValueError (msg : pystr)
  | OverflowError
  | UnicodeDecodeError
  | UnboundLocalError (var : pystr)
  | KeyboardInterrupt
  | SystemExit.

(** [isinstance(e, Exception)]. *)
Definition is_Exception (e : exn) : bool :=
  match e with
  | KeyboardInterrupt | SystemExit => false
  | _ => true
  end.

(** [isinstance(e, subprocess.CalledProcessError)]. *)
Definition is_CalledProcessError (e : exn) : bool :=
  match e with
  | CalledProcessError _ => true
  | _ => false
  end.

(** How a call ends: it returns a value, it raises, or it does neither:
    it is still waiting for the outside world when the observed input
    ends, or it waits for something that never comes. *)
Inductive result (A : Type) : Type :=
  | Return (a : A)
  | Raise (e : exn)
  | Waiting.
Arguments Return {A} a.
Arguments Raise {A} e.
Arguments Waiting {A}.

(** ** State and exceptions *)

(** A computation reads and updates a state [S]; whatever is not a
    returned value skips the rest of the sequence. *)
Definition M (S A : Type) : Type := S → result A * S.

Global Instance M_ret {S} : MRet (M S) := λ A a s, (Return a, s).

Global Instance M_bind {S} : MBind (M S) := λ A B k m s,
  match m s with
  | (Return a, s') => k a s'
  | (Raise e, s') => (Raise e, s')
  | (Waiting, s') => (Waiting, s')
  end.

Definition raise {S A} (e : exn) : M S A := λ s, (Raise e, s).

(** [try: body  except C as e: handler e], where [caught] decides
    [isinstance(e, C)]. *)
Definition try_except {S A} (body : M S A) (caught : exn → bool)
    (handler : exn → M S A) : M S A :=
  λ s, match body s with
       | (Return a, s') => (Return a, s')
       | (Raise e, s') => if caught e then handler e s' else (Raise e, s')
       | (Waiting, s') => (Waiting, s')
       end.

(** What [subprocess.run] does: the child completes with a return code
    and captured standard output, or the call raises (the executable
    cannot be started, or the alarm of the timeout decorator goes off
    while the call waits). *)
Inductive run_outcome : Type :=
  | Completed (returncode : Z) (stdout : pystr)
  | RunRaises (e : exn).

(** ** MobotixPT *)

Module MobotixPT.

Record self := { user : pystr; passwd : pystr; ip : pystr }.

Definition preset_table : list (Z * pystr) := [
  (1, py "%FF%01%00%07%00%01%09");
  (2, py "%FF%01%00%07%00%02%0A");
  (3, py "%FF%01%00%07%00%03%0B");
  (4, py "%FF%01%00%07%00%04%0C");
  (5, py "%FF%01%00%07%00%05%0D");
  (6, py "%FF%01%00%07%00%06%0E");
  (7, py "%FF%01%00%07%00%07%0F");
  (8, py "%FF%01%00%07%00%08%10");
  (9, py "%FF%01%00%07%00%09%11");
  (10, py "%FF%01%00%07%00%10%18");
  (11, py "%FF%01%00%07%00%11%19");
  (12, py "%FF%01%00%07%00%12%1A");
  (13, py "%FF%01%00%07%00%13%1B");
  (14, py "%FF%01%00%07%00%14%1C");
  (15, py "%FF%01%00%07%00%15%1D");
  (16, py "%FF%01%00%07%00%16%1E");
  (17, py "%FF%01%00%07%00%17%1F");
  (18, py "%FF%01%00%07%00%18%20");
  (19, py "%FF%01%00%07%00%19%21");
  (20, py "%FF%01%00%07%00%20%28");
  (21, py "%FF%01%00%07%00%21%29");
  (22, py "%FF%01%00%07%00%22%2A");
  (23, py "%FF%01%00%07%00%23%2B");
  (24, py "%FF%01%00%07%00%24%2C");
  (25, py "%FF%01%00%07%00%25%2D");
  (26, py "%FF%01%00%07%00%26%2E");
  (27, py "%FF%01%00%07%00%27%2F");
  (28, py "%FF%01%00%07%00%28%30");
  (29, py "%FF%01%00%07%00%29%31");
  (30, py "%FF%01%00%07%00%30%38");
  (31, py "%FF%01%00%07%00%31%39");
  (32, py "%FF%01%00%07%00%32%3A")
].

(** [self.presets] *)
Definition presets : gmap Z pystr := list_to_map preset_table.

(** [self.speed_codes] *)
Definition speed_codes : gmap pystr (gmap Z pystr) := list_to_map [
  (py "right", list_to_map [
     (1, py "%FF%01%00%02%01%00%04");
     (2, py "%FF%01%00%02%0F%00%12");
     (3, py "%FF%01%00%02%1F%00%22");
     (4, py "%FF%01%00%02%2F%00%32");
     (5, py "%FF%01%00%02%FF%00%02") ]);
  (py "left", list_to_map [
     (1, py "%FF%01%00%04%01%00%06");
     (2, py "%FF%01%00%04%0F%00%14");
     (3, py "%FF%01%00%04%1F%00%24");
     (4, py "%FF%01%00%04%2F%00%34");
     (5, py "%FF%01%00%04%FF%00%04") ]);
  (py "up", list_to_map [
     (1, py "%FF%01%00%08%00%01%0A");
     (2, py "%FF%01%00%08%00%0F%18");
     (3, py "%FF%01%00%08%00%1F%28");
     (4, py "%FF%01%00%08%00%2F%38");
     (5, py "%FF%01%00%08%00%FF%08") ]);
  (py "down", list_to_map [
     (1, py "%FF%01%00%10%00%01%12");
     (2, py "%FF%01%00%10%00%0F%20");
     (3, py "%FF%01%00%10%00%1F%30");
     (4, py "%FF%01%00%10%00%2F%40");
     (5, py "%FF%01%00%10%00%FF%10") ])
].

(** What a call leaves behind: sub-processes started, time slept,
    lines printed. *)
Inductive action : Type :=
  | Run (cmd : list pystr)
  | Sleep (seconds : Z)
  | PrintError (e : exn).

Record state := { calls : nat; trace : list action }.

Definition log (a : action) : M state unit :=
  λ s, (Return tt, {| calls := calls s; trace := trace s ++ [a] |}).

(** Values the methods return: [None], a [str], or an exception
    object (returned, not raised). *)
Inductive pyval : Type :=
  | VNone
  | VStr (s : pystr)
  | VExn (e : exn).

Definition stop_code : pystr := py "%FF%01%00%00%00%00%01".
Definition reset_code : pystr := py "%FF%01%00%0F%00%00%10".

Section Camera.

(** The camera and the network as seen through curl: the outcome of
    the [n]-th sub-process this controller starts, given its command
    line.  A [TimeoutError] from the 15 s [timeout_decorator] around
    [_send_command] is one of the ways the call can raise. *)
Variable camera : nat → list pystr → run_outcome.

Variable me : self.

(** [subprocess.run(cmd, capture_output=True, text=True)] *)
Definition subprocess_run (cmd : list pystr) : M state (Z * pystr) :=
  λ s, let s' := {| calls := S (calls s); trace := trace s ++ [Run cmd] |} in
       match camera (calls s) cmd with
       | Completed rc out => (Return (rc, out), s')
       | RunRaises e => (Raise e, s')
       end.

(** The most seconds [time.sleep] takes: it first turns the number into
    nanoseconds held in 64 bits, and one second more, in either direction,
    no longer fits. *)
Definition sleep_max : Z := 9223372036.

(** [time.sleep(duration)], for a whole number of seconds: a number out
    of range raises [OverflowError]; a negative one within the range is
    then refused with [ValueError]. *)
Definition sleep (duration : Z) : M state unit :=
  if bool_decide (sleep_max < Z.abs duration)
  then raise OverflowError
  else if duration <? 0
  then raise (ValueError (py "sleep length must be non-negative"))
  else log (Sleep duration).

Definition curl_cmd (code : pystr) : list pystr :=
  [ py "curl"; py "-u"; user me ++ py ":" ++ passwd me; py "-X"; py "POST";
    py "http://" ++ ip me ++
      py "/control/rcontrol?action=putrs232&rs232outtext=" ++ code ].

Definition _send_command (code : pystr) : M state pyval :=
  let cmd := curl_cmd code in
  try_except
    (result ← subprocess_run cmd;
     if bool_decide (strip (snd result) ≠ py "OK")
     then raise (Exception
            (py "INVALID_CREDENTIALS_OR_CONNECTION_ERROR:" ++ snd result))
     else mret (VStr (snd result)))
    is_CalledProcessError
    (λ e, log (PrintError e);; mret (VExn e)).

Definition move_to_preset (pt_id : Z) : M state pyval :=
  let preset_code := presets !! pt_id in
  match preset_code with
  | Some code =>
      if truthy code then _send_command code
      else mret (VStr (py "Invalid preset ID."))
  | None => mret (VStr (py "Invalid preset ID."))
  end.

Definition stop : M state pyval := _send_command stop_code.

Definition remote_reset : M state pyval := _send_command reset_code.

Definition move (direction : pystr) (speed duration : Z) : M state pyval :=
  match speed_codes !! direction with
  | None => raise (KeyError direction)
  | Some by_speed =>
      match by_speed !! speed with
      | Some code =>
          if truthy code then
            _send_command code;; sleep duration;; stop;; mret VNone
          else mret (VStr (py "Invalid code value for movement."))
      | None => mret (VStr (py "Invalid code value for movement."))
      end
  end.

End Camera.

Definition init : state := {| calls := 0; trace := [] |}.

(** *** The wire format

    A closed form of the two tables above, for the statements about them:
    every code is a frame written in URL escapes,
    [%FF %01 %00 <op> <param1> <param2> <checksum>], whose checksum is the
    sum of the five bytes between [FF] and it, modulo 256. *)

Definition hexdigit (d : Z) : N :=
  Z.to_N (if d <? 10 then 48 + d else 55 + d).

Definition escape (b : Z) : pystr :=
  [37%N; hexdigit (b / 16); hexdigit (b mod 16)].

Definition frame (op param1 param2 : Z) : pystr :=
  escape 255 ++ escape 1 ++ escape 0 ++ escape op ++ escape param1 ++
  escape param2 ++ escape ((1 + 0 + op + param1 + param2) mod 256).

(** Preset [n]: operation 7, the two decimal digits of [n] read as the
    two hexadecimal digits of the last parameter. *)
Definition preset_frame (n : Z) : pystr :=
  frame 7 0 (16 * (n / 10) + n mod 10).

Definition speed_byte (speed : Z) : Z :=
  if speed =? 1 then 1 else if speed =? 5 then 255 else 16 * (speed - 1) - 1.

(** A move: the operation names the direction; the speed goes in the
    first parameter for pan, in the second for tilt. *)
Definition speed_frame (direction : pystr) (speed : Z) : pystr :=
  if bool_decide (direction = py "right") then frame 2 (speed_byte speed) 0
  else if bool_decide (direction = py "left") then frame 4 (speed_byte speed) 0
  else if bool_decide (direction = py "up") then frame 8 0 (speed_byte speed)
  else frame 16 0 (speed_byte speed).

Definition directions : list pystr := [py "right"; py "left"; py "up"; py "down"].

(** *** Sessions

    The four methods a user of the class calls, and a session of such
    calls on one controller: each call runs on the state the one before
    left, whether that one returned or raised. *)

Inductive request : Type :=
  | MoveToPreset (pt_id : Z)
  | Move (direction : pystr) (speed duration : Z)
  | Stop
  | RemoteReset.

Definition perform (camera : nat → list pystr → run_outcome) (me : self)
    (r : request) : M state pyval :=
  match r with
  | MoveToPreset pt_id => move_to_preset camera me pt_id
  | Move direction speed duration => move camera me direction speed duration
  | Stop => stop camera me
  | RemoteReset => remote_reset camera me
  end.

Fixpoint session (camera : nat → list pystr → run_outcome) (me : self)
    (rs : list request) (s : state) : state :=
  match rs with
  | [] => s
  | r :: rs' => session camera me rs' (perform camera me r s).2
  end.

(** A code the class holds: an entry of one of the two tables, or one of
    the two constants. *)
Definition known_code (code : pystr) : Prop :=
  (∃ pt_id, presets !! pt_id = Some code) ∨
  (∃ direction speed, (speed_codes !! direction) ≫= (.!! speed) = Some code) ∨
  code = stop_code ∨ code = reset_code.

(** An action that is not a sub-process, or is curl posting a known code
    to the camera of [me] with its credentials. *)
Definition posts_known_code (me : self) (a : action) : Prop :=
  match a with
  | Run cmd => ∃ code, cmd = curl_cmd me code ∧ known_code code
  | _ => True
  end.

Definition is_run (a : action) : bool :=
  match a with
  | Run _ => true
  | _ => false
  end.

(** The sub-processes of a trace. *)
Definition runs (t : list action) : list action := List.filter is_run t.

(** What a state of a controller keeps true: it has counted its
    sub-processes, and each of them posted a known code. *)
Definition tidy (me : self) (s : state) : Prop :=
  calls s = length (runs (trace s)) ∧ Forall (posts_known_code me) (trace s).

End MobotixPT.

(** ** Bytes, decoding and the two regular expressions *)

(** A [bytes] value, one number below 256 per byte. *)
Definition bytes := list N.

(** [bytes.strip()] removes ASCII white space only. *)
Definition bytes_isspace (b : N) : bool :=
  ((9 <=? b) && (b <=? 13) || (b =? 32))%N.

Fixpoint bytes_lstrip (s : bytes) : bytes :=
  match s with
  | b :: s' => if bytes_isspace b then bytes_lstrip s' else s
  | [] => []
  end.

Definition bytes_strip (s : bytes) : bytes :=
  reverse (bytes_lstrip (reverse (bytes_lstrip s))).

Definition continuation (b : N) : bool := ((128 <=? b) && (b <=? 191))%N.

(** [bytes.decode()]: strict UTF-8.  [None] stands for
    [UnicodeDecodeError] (stray or missing continuation bytes, overlong
    forms, surrogates, code points above U+10FFFF). *)
Fixpoint decode (s : bytes) : option pystr :=
  match s with
  | [] => Some []
  | b0 :: r0 =>
      if (b0 <? 128)%N then (b0 ::.) <$> decode r0
      else if ((194 <=? b0) && (b0 <=? 223))%N then
        match r0 with
        | b1 :: r1 =>
            if continuation b1
            then (((b0 - 192) * 64 + (b1 - 128))%N ::.) <$> decode r1
            else None
        | _ => None
        end
      else if ((224 <=? b0) && (b0 <=? 239))%N then
        match r0 with
        | b1 :: b2 :: r2 =>
            if ((if (b0 =? 224) then 160 else 128) <=? b1)%N &&
               (b1 <=? (if (b0 =? 237) then 159 else 191))%N &&
               continuation b2
            then (((b0 - 224) * 4096 + (b1 - 128) * 64 + (b2 - 128))%N ::.)
                   <$> decode r2
            else None
        | _ => None
        end
      else if ((240 <=? b0) && (b0 <=? 244))%N then
        match r0 with
        | b1 :: b2 :: b3 :: r3 =>
            if ((if (b0 =? 240) then 144 else 128) <=? b1)%N &&
               (b1 <=? (if (b0 =? 244) then 143 else 191))%N &&
               continuation b2 && continuation b3
            then (((b0 - 240) * 262144 + (b1 - 128) * 4096 +
                   (b2 - 128) * 64 + (b3 - 128))%N ::.) <$> decode r3
            else None
        | _ => None
        end
      else None
  end.

(** The fragment of [re] the program uses: literal text, [\s], [\d],
    one-or-more of a character class, concatenation and a capturing
    group. *)
Inductive charclass : Type :=
  | Space
  | Digit.

Inductive regex : Type :=
  | Lit (text : pystr)
  | One (c : charclass)
  | Plus (c : charclass)
  | Cat (r1 r2 : regex)
  | Group (r : regex).

(** A match object: [m.group()] and [m.groups()]. *)
Record rematch := { group : pystr; groups : list pystr }.

Section Interpreter.

(** [Py_UNICODE_TODECIMAL]: the value of a character of category Nd,
    [None] for every other character.  The table grows with each Unicode
    version and is left to the interpreter; [\d] and [int] both use it. *)
Variable todecimal : N → option N.

(** [sys.get_int_max_str_digits()]: the longest digit string [int]
    converts, 0 when there is no limit (and in interpreters that have
    none). *)
Variable max_str_digits : nat.

Definition in_class (c : charclass) (x : N) : bool :=
  match c with
  | Space => py_isspace x
  | Digit => bool_decide (is_Some (todecimal x))
  end.

Fixpoint strip_prefix (text s : pystr) : option pystr :=
  match text, s with
  | [], _ => Some s
  | t :: text', x :: s' => if bool_decide (t = x) then strip_prefix text' s' else None
  | _ :: _, [] => None
  end.

(** One or more characters of the class, as many as possible first,
    giving one back at a time while the rest of the pattern fails. *)
Fixpoint greedy {R} (c : charclass) (s : pystr) (k : pystr → option R)
    : option R :=
  match s with
  | x :: s' =>
      if in_class c x then
        match greedy c s' k with
        | Some r => Some r
        | None => k s'
        end
      else None
  | [] => None
  end.

(** Backtracking match of [r] at the head of [s]; [k] matches what
    follows [r] in the pattern and receives the text left and the groups
    closed so far. *)
Fixpoint match_here {R} (r : regex) (s : pystr) (caps : list pystr)
    (k : pystr → list pystr → option R) : option R :=
  match r with
  | Lit text =>
      match strip_prefix text s with
      | Some s' => k s' caps
      | None => None
      end
  | One c =>
      match s with
      | x :: s' => if in_class c x then k s' caps else None
      | [] => None
      end
  | Plus c => greedy c s (λ s', k s' caps)
  | Cat r1 r2 => match_here r1 s caps (λ s' caps', match_here r2 s' caps' k)
  | Group r' =>
      match_here r' s caps
        (λ s' caps', k s' (caps' ++ [take (length s - length s') s]))
  end.

(** [re.search(r, s)]: the match at the leftmost position that has one. *)
Fixpoint re_search (r : regex) (s : pystr) : option rematch :=
  match match_here r s []
          (λ s' caps, Some {| group := take (length s - length s') s;
                              groups := caps |}) with
  | Some m => Some m
  | None =>
      match s with
      | _ :: s' => re_search r s'
      | [] => None
      end
  end.

(** [int(s)] for a string of decimal digits. *)
Definition int (s : pystr) : result Z :=
  if bool_decide (0 < max_str_digits < length s)%nat
  then Raise (ValueError (py "Exceeds the limit for integer string conversion"))
  else Return (fold_left (λ acc x, 10 * acc + Z.of_N (default 0%N (todecimal x))) s 0).

End Interpreter.

(** The digits 0-9, the part of the decimal table every Unicode version
    has. *)
Definition ascii_decimal (x : N) : option N :=
  if ((48 <=? x) && (x <=? 57))%N then Some (x - 48)%N else None.

(** ["frame\s#(\d+)"] *)
Definition frame_re : regex :=
  Cat (Lit (py "frame")) (Cat (One Space) (Cat (Lit (py "#")) (Group (Plus Digit)))).

(** ["\d+x\d+"] *)
Definition resolution_re : regex :=
  Cat (Plus Digit) (Cat (Lit (py "x")) (Plus Digit)).

(** ** Paths *)

(** A [Path] with a final component: [parent] is the directory as
    pathlib prints it ([str(p.parent)]: ["."] for the current directory,
    no slash at the end but for a root), [name] is [p.name]. *)
Record path := { parent : pystr; name : pystr }.

Global Instance path_eq_dec : EqDecision path.
Proof. solve_decision. Defined.

(** [str(p)]: the current directory is left out of what is below it, and
    a root (["/"] or ["//"]) brings its own slash. *)
Definition path_str (p : path) : pystr :=
  if bool_decide (parent p = py ".") then name p
  else if bool_decide (last (parent p) = Some 47%N) then parent p ++ name p
  else parent p ++ py "/" ++ name p.

(** [s.rfind(".")], [None] for -1. *)
Fixpoint rfind_dot (s : pystr) : option nat :=
  match s with
  | [] => None
  | x :: s' =>
      match rfind_dot s' with
      | Some i => Some (S i)
      | None => if bool_decide (x = 46%N) then Some O else None
      end
  end.

(** [p.suffix]: from the last dot of the name on, unless that dot is the
    first or the last character. *)
Definition suffix (p : path) : pystr :=
  match rfind_dot (name p) with
  | Some i =>
      if bool_decide (0 < i < length (name p) - 1)%nat
      then drop i (name p) else []
  | None => []
  end.

(** [p.stem] *)
Definition stem (p : path) : pystr :=
  match rfind_dot (name p) with
  | Some i =>
      if bool_decide (0 < i < length (name p) - 1)%nat
      then take i (name p) else name p
  | None => name p
  end.

(** [p.with_suffix(sfx)] for a well-formed [sfx] such as [".jpg"]. *)
Definition with_suffix (p : path) (sfx : pystr) : result path :=
  if negb (truthy (name p))
  then Raise (ValueError (py "path has an empty name"))
  else
    let old_suffix := suffix p in
    Return {| parent := parent p;
              name := if truthy old_suffix
                      then take (length (name p) - length old_suffix) (name p) ++ sfx
                      else name p ++ sfx |}.

(** [p.with_name(name')]; the messages, which quote the path and the
    name, are shortened. *)
Definition with_name (p : path) (name' : pystr) : result path :=
  if negb (truthy (name p))
  then Raise (ValueError (py "path has an empty name"))
  else if bool_decide (name' = [] ∨ 47%N ∈ name' ∨ name' = py ".")
  then Raise (ValueError (py "Invalid name"))
  else Return {| parent := parent p; name := name' |}.

(** [s.split("_", 1)]: the text before the first underscore and the text
    after it, or the whole text alone when it has no underscore. *)
Fixpoint split_underscore (s : pystr) : list pystr :=
  match s with
  | [] => [[]]
  | c :: s' =>
      if bool_decide (c = 95%N) then [[]; s']
      else match split_underscore s' with
           | a :: l => (c :: a) :: l
           | [] => [[c]]
           end
  end.

(** ** MobotixImager *)

Module MobotixImager.

(** [workdir] holds [str(self.workdir)], the [Path] made of the argument
    as pathlib prints it. *)
Record self := {
  ip : pystr;
  user : pystr;
  password : pystr;
  workdir : pystr;
  frames : Z
}.

(** The entries of the working directory, in the order the operating
    system lists them, each with its content. *)
Definition directory := list (pystr * bytes).

Definition exists_in (d : directory) (n : pystr) : bool :=
  bool_decide (n ∈ d.*1).

Definition remove (n : pystr) (d : directory) : directory :=
  filter (λ e, e.1 ≠ n) d.

(** What one turn of the polling loop finds on the standard output of
    the capture process. *)
Inductive poll : Type :=
  | Quiet                    (* nothing to read for the whole timeout *)
  | Line (output : bytes)    (* readable; readline gives this, b"" at end of file *)
  | SelectFails (e : exn)    (* select raises *)
  | ReadFails (e : exn).     (* readable, but readline raises *)

Inductive action : Type :=
  | Mkdir (dir : pystr)
  | Popen (cmd : list pystr)
  | Select (timeout : Z)
  | Readline
  | CloseStdout
  | WaitExit                 (* wait(), for as long as the child runs *)
  | WaitBriefly              (* _wait(timeout=0.25), a timeout being ignored *)
  | SendSignal (signum : Z)  (* send_signal, terminate or kill: never used *)
  | Run (cmd : list pystr)
  | Scandir (dir : pystr)
  | Unlink (file : pystr)
  | Info (msg : pystr)
  | InfoCalling (cmd : list pystr)
  | Warning (msg : pystr)
  | DebugRemoving (file : pystr)
  | LogException (e : exn).

Record state := {
  pending : list poll;
  files : directory;
  trace : list action
}.

Definition log (a : action) : M state unit :=
  λ s, (Return tt, {| pending := pending s; files := files s;
                      trace := trace s ++ [a] |}).

Section World.

Variable todecimal : N → option N.
Variable max_str_digits : nat.

(** [Path.mkdir] and [subprocess.Popen] raise this, if anything. *)
Variable mkdir_error : option exn.
Variable popen_error : option exn.

(** Whether the capture process ever exits once the program has stopped
    reading its output: if not, waiting for it does not end. *)
Variable child_exits : bool.

(** The working directory once the capture process has exited, from the
    directory it was started on. *)
Variable thermal_raw : directory → directory.

(** The converter: from the video size, the names of the input and of
    the output and the directory, how the run ends and the directory it
    leaves. *)
Variable ffmpeg : pystr → pystr → pystr → directory → run_outcome * directory.

Variable me : self.

Definition in_workdir (n : pystr) : path := {| parent := workdir me; name := n |}.

(** [re.search("\d+x\d+", path.stem).group()]; without a match
    [re.search] gives [None], which has no [group]. *)
Definition extract_resolution (p : path) : M state pystr :=
  match re_search todecimal resolution_re (stem p) with
  | Some m => mret (group m)
  | None => raise (AttributeError (py "'NoneType' object has no attribute 'group'"))
  end.

Definition ffmpeg_cmd (image_dims : pystr) (fname_rgb fname_jpg : path) : list pystr :=
  [ py "ffmpeg"; py "-f"; py "rawvideo"; py "-pixel_format"; py "bgra";
    py "-video_size"; image_dims; py "-i"; path_str fname_rgb; path_str fname_jpg ].

(** [subprocess.run(cmd, check=True)] on the converter. *)
Definition run_ffmpeg (image_dims : pystr) (fname_rgb fname_jpg : path) : M state unit :=
  λ s, let '(outcome, d) := ffmpeg image_dims (name fname_rgb) (name fname_jpg) (files s) in
       let s' := {| pending := pending s; files := d;
                    trace := trace s ++ [Run (ffmpeg_cmd image_dims fname_rgb fname_jpg)] |} in
       match outcome with
       | Completed rc _ =>
           if bool_decide (rc ≠ 0) then (Raise (CalledProcessError rc), s')
           else (Return tt, s')
       | RunRaises e => (Raise e, s')
       end.

(** [p.unlink()] *)
Definition unlink (p : path) : M state unit :=
  λ s, let s' := {| pending := pending s; files := remove (name p) (files s);
                    trace := trace s ++ [Unlink (path_str p)] |} in
       if exists_in (files s) (name p) then (Return tt, s')
       else (Raise (FileNotFoundError (path_str p)),
             {| pending := pending s; files := files s;
                trace := trace s ++ [Unlink (path_str p)] |}).

Definition lift {A} (r : result A) : M state A := λ s, (r, s).

Definition convert_rgb_to_jpg (fname_rgb : path) : M state path :=
  fname_jpg ← lift (with_suffix fname_rgb (py ".jpg"));
  image_dims ← extract_resolution fname_rgb;
  run_ffmpeg image_dims fname_rgb fname_jpg;;
  log (DebugRemoving (path_str fname_rgb));;
  unlink fname_rgb;;
  mret fname_jpg.

Definition thermal_raw_cmd : list pystr :=
  [ py "/thermal-raw"; py "--url"; ip me; py "--user"; user me;
    py "--password"; password me; py "--dir"; workdir me ].

(** [select([process.stdout], [], [], 5)[0]] takes the next turn of the
    capture process; with none left the call is still waiting. *)
Definition select (timeout : Z) : M state poll :=
  λ s, match pending s with
       | [] => (Waiting, s)
       | ev :: rest =>
           let s' := {| pending := rest; files := files s;
                        trace := trace s ++ [Select timeout] |} in
           match ev with
           | SelectFails e => (Raise e, s')
           | _ => (Return ev, s')
           end
       end.

(** [pollresults[0].readline()] *)
Definition readline (ev : poll) : M state bytes :=
  log Readline;;
  match ev with
  | Line output => mret output
  | ReadFails e => raise e
  | _ => mret []
  end.

(** [output.strip().decode()] *)
Definition strip_decode (output : bytes) : M state pystr :=
  match decode (bytes_strip output) with
  | Some text => mret text
  | None => raise UnicodeDecodeError
  end.

(** One turn of [while True]: [true] for [return], [false] for going
    round again ([continue] or the end of the body). *)
Definition turn : M state bool :=
  pollresults ← select 5;
  match pollresults with
  | Quiet =>
      log (Warning (py "Timeout waiting for camera interface output"));;
      mret false
  | _ =>
      output ← readline pollresults;
      if negb (truthy output) then
        log (Warning (py "No data from camera interface output"));;
        mret false
      else
        text ← strip_decode output;
        let m := re_search todecimal frame_re text in
        text' ← strip_decode output;
        log (Info text');;
        match m with
        | Some m =>
            n ← lift (int todecimal max_str_digits (default [] (head (groups m))));
            if bool_decide (n > frames me) then
              log (Info (py "Max frame count reached, closing camera capture"));;
              mret true
            else mret false
        | None => mret false
        end
  end.

Fixpoint while_true (fuel : nat) (body : M state bool) : M state unit :=
  match fuel with
  | O => λ s, (Waiting, s)
  | S fuel' =>
      done ← body;
      if done : bool then mret tt else while_true fuel' body
  end.

(** [Popen.__exit__], entered with the way the body ended: it closes the
    pipe; on a [KeyboardInterrupt] it gives the child a quarter of a second
    and lets the interrupt go on; on anything else it waits until the
    child has exited, however long that takes, and the body's result goes
    on only then.  The files of the child are there once it has exited. *)
Definition popen_exit {A} (r : result A) : M state A :=
  λ s, match r with
       | Raise KeyboardInterrupt =>
           (r, {| pending := pending s; files := files s;
                  trace := trace s ++ [CloseStdout; WaitBriefly] |})
       | _ =>
           if child_exits
           then (r, {| pending := pending s; files := thermal_raw (files s);
                       trace := trace s ++ [CloseStdout; WaitExit] |})
           else (Waiting, {| pending := pending s; files := files s;
                             trace := trace s ++ [CloseStdout; WaitExit] |})
       end.

(** [with subprocess.Popen(cmd, stdout=PIPE) as process: body]: a body
    that is still waiting has not left the block. *)
Definition with_popen {A} (cmd : list pystr) (body : M state A) : M state A :=
  λ s, let s0 := {| pending := pending s; files := files s;
                    trace := trace s ++ [Popen cmd] |} in
       match popen_error with
       | Some e => (Raise e, s0)
       | None =>
           match body s0 with
           | (Waiting, s1) => (Waiting, s1)
           | (r, s1) => popen_exit r s1
           end
       end.

(** [while True: ...]; every turn that does not end the loop takes one
    of the pending turns of the capture process, so one more than their
    number is fuel enough. *)
Definition poll_loop : M state unit :=
  λ s, while_true (S (length (pending s))) turn s.

Definition get_camera_frames : M state unit :=
  let cmd := thermal_raw_cmd in
  log (InfoCalling cmd);;
  with_popen cmd poll_loop.

(** [self.workdir.mkdir(parents=True, exist_ok=True)] *)
Definition mkdir : M state unit :=
  log (Mkdir (workdir me));;
  match mkdir_error with
  | Some e => raise e
  | None => mret tt
  end.

(** [self.workdir.glob("*")]: the entries are listed once, before the
    first one is handed out. *)
Definition listdir : M state (list pystr) := λ s, (Return (files s).*1, s).

Definition glob : M state (list path) :=
  log (Scandir (workdir me));;
  names ← listdir;
  mret (in_workdir <$> names).

(** The [for] loop of [capture]; [tspath] is [None] while the variable is
    unbound. *)
Fixpoint for_tspath (entries : list path) (tspath : option path) : M state (option path) :=
  match entries with
  | [] => mret tspath
  | entry :: rest =>
      tspath' ← (if bool_decide (suffix entry = py ".rgb")
                 then convert_rgb_to_jpg entry
                 else mret entry);
      for_tspath rest (Some tspath')
  end.

(** The part of [capture] after the [try] statement. *)
Definition convert_all : M state path :=
  entries ← glob;
  tspath ← for_tspath entries None;
  match tspath with
  | Some p => mret p
  | None => raise (UnboundLocalError (py "tspath"))
  end.

(** The body of the [try] statement of [capture]. *)
Definition try_body : M state unit :=
  mkdir;;
  get_camera_frames.

(** The [try] statement of [capture]. *)
Definition capture_frames : M state unit :=
  try_except
    try_body
    is_Exception
    (λ e, log (LogException e);; raise (ExceptionFrom e)).

Definition capture : M state path :=
  capture_frames;;
  convert_all.

End World.

(** *** Reading the loop and the converter

    The vocabulary of the statements about the polling loop and about the
    conversion. *)

Section Reading.

Variable todecimal : N → option N.
Variable max_str_digits : nat.

(** The frame number a non-empty line carries: what
    [re.search("frame\s#(\d+)", output.strip().decode())] finds and
    [int(m.groups()[0])] makes of it; [None] without a match. *)
Definition frame_number (output : bytes) : result (option Z) :=
  match decode (bytes_strip output) with
  | None => Raise UnicodeDecodeError
  | Some text =>
      match re_search todecimal frame_re text with
      | None => Return None
      | Some m =>
          match int todecimal max_str_digits (default [] (head (groups m))) with
          | Return n => Return (Some n)
          | Raise e => Raise e
          | Waiting => Waiting
          end
      end
  end.

(** How a turn of the loop that finds [ev] ends: [Return true] leaves the
    loop, [Return false] goes round again. *)
Definition verdict (frames : Z) (ev : poll) : result bool :=
  match ev with
  | Quiet => Return false
  | SelectFails e | ReadFails e => Raise e
  | Line output =>
      if negb (truthy output) then Return false
      else match frame_number output with
           | Return (Some n) => Return (bool_decide (n > frames))
           | Return None => Return false
           | Raise e => Raise e
           | Waiting => Waiting
           end
  end.

(** What that turn adds to the trace. *)
Definition turn_trace (frames : Z) (ev : poll) : list action :=
  match ev with
  | Quiet => [Select 5; Warning (py "Timeout waiting for camera interface output")]
  | SelectFails _ => [Select 5]
  | ReadFails _ => [Select 5; Readline]
  | Line output =>
      if negb (truthy output)
      then [Select 5; Readline; Warning (py "No data from camera interface output")]
      else match decode (bytes_strip output) with
           | None => [Select 5; Readline]
           | Some text =>
               match verdict frames ev with
               | Return true =>
                   [Select 5; Readline; Info text;
                    Info (py "Max frame count reached, closing camera capture")]
               | _ => [Select 5; Readline; Info text]
               end
           end
  end.

(** A stall: nothing to read for the whole timeout, or a read that gives
    nothing. *)
Definition stall (ev : poll) : Prop := ev = Quiet ∨ ev = Line [].

(** A line whose frame number is above the target. *)
Definition reaches (frames : Z) (ev : poll) : Prop :=
  ∃ output n, ev = Line output ∧ output ≠ [] ∧
              frame_number output = Return (Some n) ∧ frames < n.

(** A turn after which the loop goes round again: a stall, a line without
    a frame number, or a frame number that is not above the target. *)
Definition passes (frames : Z) (ev : poll) : Prop :=
  stall ev ∨
  ∃ output, ev = Line output ∧ output ≠ [] ∧
            (frame_number output = Return None ∨
             ∃ n, frame_number output = Return (Some n) ∧ n ≤ frames).

(** A turn that raises [e]. *)
Definition fails (ev : poll) (e : exn) : Prop :=
  ev = SelectFails e ∨ ev = ReadFails e ∨
  ∃ output, ev = Line output ∧ output ≠ [] ∧ frame_number output = Raise e.

End Reading.

(** What [re.search] makes of a match of the whole pattern at the head of
    [s] that leaves [s'] and has closed the groups [caps]. *)
Definition found (s s' : pystr) (caps : list pystr) : option rematch :=
  Some {| group := take (length s - length s') s; groups := caps |}.

Section Tokens.

Variable todecimal : N → option N.

(** A string of decimal digits. *)
Definition decimals (s : pystr) : Prop := Forall (λ x, is_Some (todecimal x)) s.

(** A string in which some digit is followed by [x] and a digit. *)
Definition has_resolution (s : pystr) : Prop :=
  ∃ pre d1 d2 post,
    s = pre ++ d1 :: 120%N :: d2 :: post ∧
    is_Some (todecimal d1) ∧ is_Some (todecimal d2).

End Tokens.

(** The state once the pending events are down to [rest] and [added] has
    gone to the trace. *)
Definition after (s : state) (rest : list poll) (added : list action) : state :=
  {| pending := rest; files := files s; trace := trace s ++ added |}.

(** A trace in which every read of the pipe comes right after a [select]
    with the timeout of 5 s. *)
Fixpoint polled_reads (t : list action) : Prop :=
  match t with
  | [] => True
  | Readline :: _ => False
  | Select timeout :: Readline :: t' => timeout = 5 ∧ polled_reads t'
  | _ :: t' => polled_reads t'
  end.

Definition is_select (a : action) : bool :=
  match a with
  | Select _ => true
  | _ => false
  end.

(** The converter leaves every file but its output as it found it. *)
Definition writes_only_output
    (ffmpeg : pystr → pystr → pystr → directory → run_outcome * directory) : Prop :=
  ∀ dims i o d n c, n ≠ o → (n, c) ∈ (ffmpeg dims i o d).2 ↔ (n, c) ∈ d.

(** A converter that exits with status 0 has written its output file. *)
Definition success_writes_output
    (ffmpeg : pystr → pystr → pystr → directory → run_outcome * directory) : Prop :=
  ∀ dims i o d out d', ffmpeg dims i o d = (Completed 0 out, d') → o ∈ d'.*1.

(** The converter exits with status 0 whatever it is given. *)
Definition always_succeeds
    (ffmpeg : pystr → pystr → pystr → directory → run_outcome * directory) : Prop :=
  ∀ dims i o d, ∃ out, (ffmpeg dims i o d).1 = Completed 0 out.

(** The [.jpg] sibling of a path. *)
Definition jpg_sibling (p : path) : path :=
  {| parent := parent p; name := stem p ++ py ".jpg" |}.

(** What the conversion of the entry [n] of the working directory adds to
    the trace when it succeeds; nothing for an entry that is not raw. *)
Definition conversion_trace (todecimal : N → option N) (me : self) (n : pystr)
    : list action :=
  let p := in_workdir me n in
  if bool_decide (suffix p = py ".rgb") then
    match re_search todecimal resolution_re (stem p) with
    | Some m => [Run (ffmpeg_cmd (group m) p (jpg_sibling p));
                 DebugRemoving (path_str p); Unlink (path_str p)]
    | None => []
    end
  else [].

(** A directory entry after its turn in the loop of [capture]. *)
Definition converted (p : path) : path :=
  if bool_decide (suffix p = py ".rgb") then jpg_sibling p else p.

(** *** File names *)

Section Names.

(** The builtin [int] on a [str]: the number the text denotes, or the
    exception [int] raises on it. *)
Variable pyint : pystr → result Z.

(** [extract_timestamp_and_filename]; it reads nothing of [self] and
    touches no file.  The unpacking of the list [split] returns into two
    names raises [ValueError] when the list has one element. *)
Definition extract_timestamp_and_filename (p : path) : result (Z * path) :=
  match split_underscore (name p) with
  | [timestamp_str; filename] =>
      match pyint timestamp_str with
      | Return timestamp =>
          match with_name p filename with
          | Return p' => Return (timestamp, p')
          | Raise e => Raise e
          | Waiting => Waiting
          end
      | Raise e => Raise e
      | Waiting => Waiting
      end
  | _ => Raise (ValueError (py "not enough values to unpack (expected 2, got 1)"))
  end.

End Names.

End MobotixImager.

(** ** Concrete cameras, processes and converters *)

Module Examples.

Definition pt : MobotixPT.self :=
  {| MobotixPT.user := py "admin"; MobotixPT.passwd := py "secret";
     MobotixPT.ip := py "10.0.0.2" |}.

(** A camera that acknowledges every command. *)
Definition obedient : nat → list pystr → run_outcome :=
  λ _ _, Completed 0 (py "OK").

(** A camera that rejects the first command and acknowledges the rest. *)
Definition rejects_first : nat → list pystr → run_outcome :=
  λ n _, match n with
         | O => Completed 0 (py "ERROR")
         | _ => Completed 0 (py "OK")
         end.

(** A camera no command reaches within the time the decorator allows. *)
Definition times_out : nat → list pystr → run_outcome :=
  λ _ _, RunRaises TimeoutError.

(** A camera that answers every command with [body]. *)
Definition answers (body : pystr) : nat → list pystr → run_outcome :=
  λ _ _, Completed 0 body.

Definition imager : MobotixImager.self :=
  {| MobotixImager.ip := py "10.0.0.2"; MobotixImager.user := py "admin";
     MobotixImager.password := py "secret"; MobotixImager.workdir := py "/data";
     MobotixImager.frames := 2 |}.

(** A converter that writes a JPEG next to its input and exits with 0. *)
Definition ffmpeg_ok (dims i o : pystr) (d : MobotixImager.directory)
    : run_outcome * MobotixImager.directory :=
  (Completed 0 [], MobotixImager.remove o d ++ [(o, py "JFIF")]).

(** A converter that writes nothing and exits with 1. *)
Definition ffmpeg_broken (dims i o : pystr) (d : MobotixImager.directory)
    : run_outcome * MobotixImager.directory :=
  (Completed 1 [], d).

Definition raw1 : pystr := py "1000_cam_320x240.rgb".
Definition raw2 : pystr := py "1001_cam_320x240.rgb".

Definition two_raw : MobotixImager.directory := [(raw1, py "BGRA"); (raw2, py "BGRA")].

Definition raw_then_notes : MobotixImager.directory :=
  [(raw1, py "BGRA"); (py "notes.txt", py "hello")].

(** Three frames announced, one stall before the first. *)
Definition three_frames : list MobotixImager.poll :=
  [ MobotixImager.Quiet;
    MobotixImager.Line (py "frame #1" ++ [10%N]);
    MobotixImager.Line (py "frame #2" ++ [10%N]);
    MobotixImager.Line (py "frame #3" ++ [10%N]);
    MobotixImager.Line (py "frame #4" ++ [10%N]) ].

(** One of the characters 0 to 9. *)
Definition ascii_digit (x : N) : Prop := (48 ≤ x ≤ 57)%N.

(** The decimal digits of a number, the way a program prints it. *)
Fixpoint decimal_digits (fuel : nat) (n : N) : pystr :=
  match fuel with
  | O => []
  | S fuel' =>
      if (n <? 10)%N then [(48 + n)%N]
      else decimal_digits fuel' (n / 10) ++ [(48 + n mod 10)%N]
  end.

Definition decimal (n : N) : pystr := decimal_digits (S (N.to_nat n)) n.

(** The line the capture process prints for frame [n]. *)
Definition frame_line (n : N) : bytes := py "frame #" ++ decimal n ++ [10%N].

(** The lines for [count] frames in a row, from frame [first] on. *)
Definition frame_lines (first count : nat) : list MobotixImager.poll :=
  (λ i, MobotixImager.Line (frame_line (N.of_nat i))) <$> seq first count.

(** What a capture process may print: nothing for a while, progress
    lines, a line that is none, and a progress line whose blank is a
    no-break space, two bytes in UTF-8. *)
Definition mixed_frames : list MobotixImager.poll :=
  [ MobotixImager.Quiet;
    MobotixImager.Line (frame_line 1);
    MobotixImager.Line (py "saving" ++ [10%N]);
    MobotixImager.Line (frame_line 2);
    MobotixImager.Line (py "frame" ++ [194; 160]%N ++ py "#3" ++ [10%N]);
    MobotixImager.Line (frame_line 4) ].

(** An imager that works in the current directory. *)
Definition imager_here : MobotixImager.self :=
  {| MobotixImager.ip := py "10.0.0.2"; MobotixImager.user := py "admin";
     MobotixImager.password := py "secret"; MobotixImager.workdir := py ".";
     MobotixImager.frames := 2 |}.

Definition start (events : list MobotixImager.poll) (d : MobotixImager.directory)
    : MobotixImager.state :=
  {| MobotixImager.pending := events; MobotixImager.files := d;
     MobotixImager.trace := [] |}.

End Examples.

(** * Properties of MobotixPT *)

Module PTFacts.
Import MobotixPT.

(** A table whose keys are [lo, lo+1, ...] and whose entries follow [f]
    is [f] on that range and nothing outside. *)
Lemma table_lookup (l : list (Z * pystr)) (f : Z → pystr) (lo n k : Z) :
  l.*1 = seqZ lo n →
  Forall (λ e : Z * pystr, e.2 = f e.1) l →
  (list_to_map l : gmap Z pystr) !! k =
    if bool_decide (lo ≤ k < lo + n) then Some (f k) else None.
Proof.
  intros Hkeys Hall. case_bool_decide as Hk.
  - assert (k ∈ l.*1) as Hin by (rewrite Hkeys, elem_of_seqZ; lia).
    apply list_elem_of_fmap in Hin as ([k' code] & -> & Hin).
    rewrite Forall_forall in Hall. rewrite <- (Hall _ Hin).
    apply elem_of_list_to_map_1; [|done].
    rewrite Hkeys. apply NoDup_seqZ.
  - apply not_elem_of_list_to_map_1.
    rewrite Hkeys, elem_of_seqZ. lia.
Qed.

Lemma preset_entries :
  Forall (λ e : Z * pystr, e.2 = preset_frame e.1) preset_table.
Proof. unfold preset_table. repeat constructor. Qed.

Lemma presets_lookup (pt_id : Z) :
  presets !! pt_id =
    if bool_decide (1 ≤ pt_id ≤ 32) then Some (preset_frame pt_id) else None.
Proof.
  unfold presets.
  rewrite (table_lookup preset_table preset_frame 1 32);
    [|reflexivity|apply preset_entries].
  repeat case_bool_decide; done || lia.
Qed.

Lemma truthy_frame (op param1 param2 : Z) : truthy (frame op param1 param2) = true.
Proof. reflexivity. Qed.

Lemma speed_codes_lookup (direction : pystr) :
  speed_codes !! direction =
    if bool_decide (direction ∈ directions)
    then Some (list_to_map ((λ speed, (speed, speed_frame direction speed)) <$> seqZ 1 5))
    else None.
Proof.
  case_bool_decide as Hin.
  - unfold directions in Hin. rewrite !elem_of_cons, elem_of_nil in Hin.
    destruct Hin as [->|[->|[->|[->|[]]]]]; vm_compute; reflexivity.
  - apply not_elem_of_list_to_map_1. exact Hin.
Qed.

Lemma by_speed_lookup (direction : pystr) (speed : Z) :
  (list_to_map ((λ speed, (speed, speed_frame direction speed)) <$> seqZ 1 5)
     : gmap Z pystr) !! speed =
    if bool_decide (1 ≤ speed ≤ 5) then Some (speed_frame direction speed) else None.
Proof.
  rewrite (table_lookup _ (speed_frame direction) 1 5).
  - repeat case_bool_decide; done || lia.
  - reflexivity.
  - repeat constructor.
Qed.

Lemma truthy_speed_frame (direction : pystr) (speed : Z) :
  truthy (speed_frame direction speed) = true.
Proof. unfold speed_frame. repeat case_bool_decide; apply truthy_frame. Qed.

(** What one call of [_send_command] does, case by case. *)
Lemma send_command_cases camera me (code : pystr) (s : state) :
  _send_command camera me code s =
    let cmd := curl_cmd me code in
    let s1 := {| calls := S (calls s); trace := trace s ++ [Run cmd] |} in
    match camera (calls s) cmd with
    | Completed _ body =>
        if bool_decide (strip body = py "OK") then (Return (VStr body), s1)
        else (Raise (Exception
                (py "INVALID_CREDENTIALS_OR_CONNECTION_ERROR:" ++ body)), s1)
    | RunRaises e =>
        if is_CalledProcessError e
        then (Return (VExn e),
              {| calls := S (calls s); trace := (trace s ++ [Run cmd]) ++ [PrintError e] |})
        else (Raise e, s1)
    end.
Proof.
  unfold _send_command, try_except, subprocess_run, mbind, M_bind; simpl.
  destruct (camera (calls s) (curl_cmd me code)) as [rc body|e]; simpl.
  - repeat case_bool_decide; try done; by destruct (_ : False).
  - destruct e; reflexivity.
Qed.

(** A send starts exactly one sub-process, the curl command of its code,
    and at most prints after it. *)
Lemma send_command_trace camera me (code : pystr) (s : state) :
  ∃ printed,
    trace (_send_command camera me code s).2 =
      trace s ++ Run (curl_cmd me code) :: printed ∧
    calls (_send_command camera me code s).2 = S (calls s) ∧
    Forall (λ a, ∃ e, a = PrintError e) printed.
Proof.
  rewrite send_command_cases; simpl.
  destruct (camera _ _) as [rc body|e]; [case_bool_decide|destruct (is_CalledProcessError e)];
    simpl; (eexists; split; [rewrite <- ?(assoc_L (++)); reflexivity|]);
    (split; [done|]); repeat constructor; eauto.
Qed.

Lemma lstrip_whitespace (l t : pystr) : whitespace l → lstrip (l ++ t) = lstrip t.
Proof.
  induction 1 as [|c l Hc _ IH]; [done|]. cbn [app lstrip]. by rewrite Hc.
Qed.

Lemma lstrip_head (c : N) (t : pystr) : py_isspace c = false → lstrip (c :: t) = c :: t.
Proof. intros Hc. cbn [lstrip]. by rewrite Hc. Qed.

Lemma lstrip_split (s : pystr) : ∃ l, s = l ++ lstrip s ∧ whitespace l.
Proof.
  induction s as [|c s (l & Hs & Hl)]; [exists []; split; [done|constructor]|].
  cbn [lstrip]. destruct (py_isspace c) eqn:Hc.
  - exists (c :: l). split; [cbn [app]; by rewrite <- Hs|by constructor].
  - exists []. split; [done|constructor].
Qed.

(** [strip] gives [OK] exactly for [OK] with white space, and nothing
    else, before and after it. *)
Lemma strip_OK (body : pystr) :
  strip body = py "OK" ↔
  ∃ l r, body = l ++ py "OK" ++ r ∧ whitespace l ∧ whitespace r.
Proof.
  unfold strip, rstrip. split.
  - intros Hstrip.
    destruct (lstrip_split body) as (l & Hbody & Hl).
    destruct (lstrip_split (reverse (lstrip body))) as (r & Hrev & Hr).
    apply (f_equal reverse) in Hstrip. rewrite reverse_involutive in Hstrip.
    rewrite Hstrip in Hrev. apply (f_equal reverse) in Hrev.
    rewrite reverse_involutive, reverse_app, reverse_involutive in Hrev.
    exists l, (reverse r). split; [by rewrite <- Hrev|].
    split; [done|]. by apply Forall_reverse.
  - intros (l & r & -> & Hl & Hr).
    rewrite (lstrip_whitespace l _ Hl).
    change (py "OK" ++ r) with (79%N :: 75%N :: r).
    rewrite (lstrip_head 79 _ eq_refl).
    replace (reverse (79%N :: 75%N :: r)) with (reverse r ++ [75%N; 79%N])
      by (by rewrite !reverse_cons, <- (assoc_L (++))).
    rewrite (lstrip_whitespace (reverse r) _ (proj2 (Forall_reverse _ _) Hr)).
    reflexivity.
Qed.

(** C6. Given the response body curl prints, [_send_command] returns it
    exactly when it is [OK] with nothing but white space before and after
    it, which is what the comparison of the stripped body with [OK] tests;
    with any other body it raises the invalid-response exception. *)
Theorem send_command_ok_iff camera me (code : pystr) (s : state) (rc : Z) (body : pystr) :
  camera (calls s) (curl_cmd me code) = Completed rc body →
  let s' := {| calls := S (calls s); trace := trace s ++ [Run (curl_cmd me code)] |} in
  let padded_ok := ∃ l r, body = l ++ py "OK" ++ r ∧ whitespace l ∧ whitespace r in
  (_send_command camera me code s = (Return (VStr body), s') ↔ padded_ok) ∧
  (_send_command camera me code s =
     (Raise (Exception (py "INVALID_CREDENTIALS_OR_CONNECTION_ERROR:" ++ body)), s')
   ↔ ¬ padded_ok) ∧
  (padded_ok ↔ strip body = py "OK").
Proof.
  intros Hbody s' padded_ok. subst padded_ok.
  rewrite send_command_cases; simpl. rewrite Hbody, <- strip_OK.
  case_bool_decide as Hok; split; [| |split|]; try split; try done; congruence.
Qed.

(** C8. Every entry of the preset table is the frame of its number, from
    1 to 32; the lookup finds what the table holds, that is that frame for
    the numbers 1 to 32 and nothing for any other number; [move_to_preset] sends the frame found, and for a number
    outside the table returns the "Invalid preset ID." string and leaves
    the state as it was (no sub-process is started). *)
Theorem move_to_preset_table camera me (pt_id : Z) (s : state) :
  Forall (λ e : Z * pystr, e.2 = preset_frame e.1 ∧ 1 ≤ e.1 ≤ 32) preset_table ∧
  (∀ code, presets !! pt_id = Some code ↔ (pt_id, code) ∈ preset_table) ∧
  presets !! pt_id =
    (if bool_decide (1 ≤ pt_id ≤ 32) then Some (preset_frame pt_id) else None) ∧
  move_to_preset camera me pt_id s =
    (if bool_decide (1 ≤ pt_id ≤ 32)
     then _send_command camera me (preset_frame pt_id) s
     else (Return (VStr (py "Invalid preset ID.")), s)).
Proof.
  split; [|split; [|split]].
  - unfold preset_table.
    repeat (constructor; [split; [reflexivity|simpl; lia]|]). constructor.
  - intros code. symmetry. apply elem_of_list_to_map.
    change (preset_table.*1) with (seqZ 1 32). apply NoDup_seqZ.
  - apply presets_lookup.
  - unfold move_to_preset. rewrite presets_lookup.
    case_bool_decide; [|done].
    change (truthy (preset_frame pt_id)) with true. done.
Qed.

(** What [move] does with its arguments, case by case. *)
Lemma move_cases camera me (direction : pystr) (speed duration : Z) (s : state) :
  move camera me direction speed duration s =
    if bool_decide (direction ∈ directions) then
      if bool_decide (1 ≤ speed ≤ 5) then
        (_send_command camera me (speed_frame direction speed);;
         sleep duration;; stop camera me;; mret VNone) s
      else (Return (VStr (py "Invalid code value for movement.")), s)
    else (Raise (KeyError direction), s).
Proof.
  unfold move. rewrite speed_codes_lookup.
  case_bool_decide; [|done].
  rewrite by_speed_lookup. case_bool_decide; [|done].
  by rewrite truthy_speed_frame.
Qed.

(** C7. The speed table holds, for each of the four directions and each
    speed from 1 to 5, the frame of that move, and nothing else. [move]
    sends the frame of a direction and a speed of the table (then sleeps
    and stops); for a direction of the table and any other speed it
    returns the "Invalid code value for movement." string and starts no
    sub-process; for any other direction the dictionary subscript raises
    [KeyError]: the error is thrown, not returned. *)
Theorem move_lookup camera me (direction : pystr) (speed duration : Z) (s : state) :
  (speed_codes !! direction) ≫= (.!! speed) =
    (if bool_decide (direction ∈ directions) then
       if bool_decide (1 ≤ speed ≤ 5) then Some (speed_frame direction speed) else None
     else None) ∧
  move camera me direction speed duration s =
    if bool_decide (direction ∈ directions) then
      if bool_decide (1 ≤ speed ≤ 5) then
        (_send_command camera me (speed_frame direction speed);;
         sleep duration;; stop camera me;; mret VNone) s
      else (Return (VStr (py "Invalid code value for movement.")), s)
    else (Raise (KeyError direction), s).
Proof.
  split; [|apply move_cases].
  rewrite speed_codes_lookup. case_bool_decide; [|done].
  cbv beta iota delta [mbind option_bind]. apply by_speed_lookup.
Qed.

Lemma speed_codes_entry (direction : pystr) (speed : Z) (code : pystr) :
  (speed_codes !! direction) ≫= (.!! speed) = Some code →
  direction ∈ directions ∧ 1 ≤ speed ≤ 5 ∧ code = speed_frame direction speed.
Proof.
  rewrite speed_codes_lookup. case_bool_decide; [|done].
  cbv beta iota delta [mbind option_bind].
  rewrite by_speed_lookup. case_bool_decide; [|done].
  intros [= <-]. done.
Qed.

Lemma send_command_not_waiting camera me (code : pystr) (s : state) :
  (_send_command camera me code s).1 ≠ Waiting.
Proof.
  rewrite send_command_cases; simpl.
  destruct (camera _ _) as [rc body|e];
    [case_bool_decide|destruct (is_CalledProcessError e)]; done.
Qed.


(** *** Runs on concrete cameras *)

Lemma send_command_ok_iff_witness :
  let body := [32; 79; 75; 13; 10]%N in
  Examples.answers body (calls init) (curl_cmd Examples.pt stop_code) = Completed 0 body ∧
  body = [32%N] ++ py "OK" ++ [13; 10]%N ∧
  _send_command (Examples.answers body) Examples.pt stop_code init =
    (Return (VStr body),
     {| calls := 1; trace := [Run (curl_cmd Examples.pt stop_code)] |}).
Proof.
  intros body. split; [reflexivity|]. split; [reflexivity|].
  apply (proj1 (send_command_ok_iff (Examples.answers body) Examples.pt stop_code init
                  0 body eq_refl)).
  exists [32%N], [13; 10]%N. split; [reflexivity|].
  split; repeat (apply Forall_cons_2; [reflexivity|]); apply Forall_nil_2.
Defined.

(** Bodies that are not [OK] once stripped: all of them raise. *)
Example send_command_other_bodies :
  Forall (λ body,
            (_send_command (Examples.answers body) Examples.pt stop_code init).1 =
              Raise (Exception (py "INVALID_CREDENTIALS_OR_CONNECTION_ERROR:" ++ body)))
         [py "ok"; py ""; py "ERROR"; py "OK."; py "O K"].
Proof. repeat constructor. Qed.

(** White space around [OK] does not matter, and the body is returned as
    it came. *)
Example send_command_padded_ok :
  (_send_command (Examples.answers ([32; 79; 75; 13; 10]%N)) Examples.pt stop_code init).1 =
    Return (VStr [32; 79; 75; 13; 10]%N).
Proof. reflexivity. Qed.



(** An unknown direction: the subscript raises before anything is sent. *)
Example move_diagonal :
  move Examples.obedient Examples.pt (py "diagonal") 1 0 init =
    (Raise (KeyError (py "diagonal")), init).
Proof. rewrite move_cases. reflexivity. Qed.

(** A speed outside the table, for a direction of the table. *)
Example move_too_fast :
  move Examples.obedient Examples.pt (py "left") 6 1 init =
    (Return (VStr (py "Invalid code value for movement.")), init).
Proof. rewrite move_cases. reflexivity. Qed.

Example move_to_preset_0_and_33 :
  move_to_preset Examples.obedient Examples.pt 0 init =
    (Return (VStr (py "Invalid preset ID.")), init) ∧
  move_to_preset Examples.obedient Examples.pt 33 init =
    (Return (VStr (py "Invalid preset ID.")), init).
Proof. split; reflexivity. Qed.

Example move_to_preset_10 :
  trace (move_to_preset Examples.obedient Examples.pt 10 init).2 =
    [Run (curl_cmd Examples.pt (py "%FF%01%00%07%00%10%18"))].
Proof. reflexivity. Qed.

End PTFacts.

(** * Properties of MobotixImager *)

Module ImagerFacts.
Import MobotixImager.

(** ** The polling loop *)

Section Loop.

Variable todecimal : N → option N.
Variable max_str_digits : nat.
Variable me : self.

Abbreviation turn := (turn todecimal max_str_digits me).
Abbreviation poll_loop := (poll_loop todecimal max_str_digits me).
Abbreviation frame_number := (frame_number todecimal max_str_digits).
Abbreviation verdict := (verdict todecimal max_str_digits (frames me)).
Abbreviation turn_trace := (turn_trace todecimal max_str_digits (frames me)).

Lemma turn_nil (s : state) : pending s = [] → turn s = (Waiting, s).
Proof.
  intros Hp. unfold MobotixImager.turn, mbind, M_bind, select. by rewrite Hp.
Qed.

Lemma turn_cons (s : state) (ev : poll) (rest : list poll) :
  pending s = ev :: rest →
  turn s = (verdict ev, after s rest (turn_trace ev)).
Proof.
  intros Hp.
  unfold MobotixImager.turn, mbind, M_bind, select, after. rewrite Hp.
  destruct ev as [|output|e|e]; simpl.
  - by rewrite <- !(assoc_L (++)).
  - unfold MobotixImager.frame_number.
    destruct output as [|b output]; simpl; [by rewrite <- !(assoc_L (++))|].
    unfold strip_decode.
    destruct (decode (bytes_strip (b :: output))) as [text|]; simpl;
      [|by rewrite <- !(assoc_L (++))].
    destruct (re_search todecimal frame_re text) as [m|]; simpl;
      [|by rewrite <- !(assoc_L (++))].
    unfold lift.
    destruct (int _ _ _) as [n|e|]; simpl; [|by rewrite <- !(assoc_L (++))..].
    case_bool_decide; simpl; by rewrite <- !(assoc_L (++)).
  - done.
  - by rewrite <- !(assoc_L (++)).
Qed.

Lemma poll_loop_nil (s : state) : pending s = [] → poll_loop s = (Waiting, s).
Proof.
  intros Hp. unfold MobotixImager.poll_loop. rewrite Hp. simpl.
  unfold mbind, M_bind. by rewrite turn_nil.
Qed.

Lemma poll_loop_cons (s : state) (ev : poll) (rest : list poll) :
  pending s = ev :: rest →
  poll_loop s =
    match verdict ev with
    | Return true => (Return tt, after s rest (turn_trace ev))
    | Return false => poll_loop (after s rest (turn_trace ev))
    | Raise e => (Raise e, after s rest (turn_trace ev))
    | Waiting => (Waiting, after s rest (turn_trace ev))
    end.
Proof.
  intros Hp. unfold MobotixImager.poll_loop at 1. rewrite Hp.
  cbn [length while_true]. unfold mbind, M_bind.
  rewrite (turn_cons s ev rest Hp).
  destruct (verdict ev) as [[|]|e|]; done.
Qed.

Lemma frame_number_not_waiting (output : bytes) : frame_number output ≠ Waiting.
Proof.
  unfold MobotixImager.frame_number.
  destruct (decode _) as [text|]; [|done].
  destruct (re_search _ _ _) as [m|]; [|done].
  unfold int. by case_bool_decide.
Qed.

Lemma truthy_nonempty (output : list N) : truthy output = true ↔ output ≠ [].
Proof. by destruct output. Qed.

Lemma verdict_reaches (ev : poll) :
  verdict ev = Return true ↔ reaches todecimal max_str_digits (frames me) ev.
Proof.
  unfold reaches. split.
  - destruct ev as [|output|e|e]; simpl; try done.
    destruct output as [|b output]; simpl; [done|].
    destruct (frame_number (b :: output)) as [[n|]|e|] eqn:Hfn; try done.
    intros [= Hn%bool_decide_eq_true]. exists (b :: output), n.
    repeat split; try done. lia.
  - intros (output & n & -> & Hne & Hn & Hlt). simpl.
    apply truthy_nonempty in Hne. rewrite Hne, Hn. simpl.
    f_equal. apply bool_decide_eq_true. lia.
Qed.

Lemma verdict_passes (ev : poll) :
  verdict ev = Return false ↔ passes todecimal max_str_digits (frames me) ev.
Proof.
  unfold passes, stall. split.
  - destruct ev as [|output|e|e]; simpl; try done; [by left; left|].
    destruct output as [|b output]; simpl; [by left; right|].
    destruct (frame_number (b :: output)) as [[n|]|e|] eqn:Hn; try done.
    + intros [= Hle%bool_decide_eq_false]. right. exists (b :: output).
      repeat split; try done. right. exists n. split; [done|lia].
    + intros _. right. exists (b :: output). repeat split; try done. by left.
  - intros [[->| ->]|(output & -> & Hne & Hn)]; simpl; try done.
    apply truthy_nonempty in Hne. rewrite Hne. simpl.
    destruct Hn as [->|(n & -> & Hle)]; [done|].
    f_equal. apply bool_decide_eq_false. lia.
Qed.

Lemma verdict_fails (ev : poll) (e : exn) :
  verdict ev = Raise e ↔ fails todecimal max_str_digits ev e.
Proof.
  unfold fails. split.
  - destruct ev as [|output|e'|e']; simpl; try done;
      [|intros [= ->]; by left|intros [= ->]; by right; left].
    destruct output as [|b output]; simpl; [done|].
    destruct (frame_number (b :: output)) as [[n|]|e'|] eqn:Hn; try done.
    intros [= ->]. right; right. by exists (b :: output).
  - intros [->|[->|(output & -> & Hne & Hn)]]; simpl; try done.
    apply truthy_nonempty in Hne. by rewrite Hne, Hn.
Qed.

Lemma verdict_not_waiting (ev : poll) : verdict ev ≠ Waiting.
Proof.
  destruct ev as [|output|e|e]; simpl; try done.
  destruct (negb (truthy output)); [done|].
  pose proof (frame_number_not_waiting output).
  destruct (frame_number output) as [[n|]|e|]; done.
Qed.

Lemma after_pending (s : state) : after s (pending s) [] = s.
Proof. destruct s. unfold after. simpl. by rewrite app_nil_r. Qed.

Lemma after_after (s : state) (r1 r2 : list poll) (t1 t2 : list action) :
  after (after s r1 t1) r2 t2 = after s r2 (t1 ++ t2).
Proof. unfold after. simpl. by rewrite (assoc_L (++)). Qed.

(** However the loop ends, it has taken some of the pending events, in
    order, and left the others; its trace is the trace of those turns. *)
Lemma poll_loop_state (l : list poll) (s : state) :
  pending s = l →
  ∃ k, (poll_loop s).2 = after s (drop k l) (concat (turn_trace <$> take k l)).
Proof.
  revert s. induction l as [|ev l IH]; intros s Hp.
  - exists 0%nat. rewrite poll_loop_nil by done. simpl.
    by rewrite <- Hp, after_pending.
  - rewrite (poll_loop_cons s ev l Hp).
    destruct (verdict ev) as [[|]|e|];
      try (exists 1%nat; simpl; by rewrite drop_0, app_nil_r).
    destruct (IH (after s l (turn_trace ev)) eq_refl) as [k Hk].
    exists (S k). rewrite Hk, after_after. done.
Qed.

Lemma poll_loop_returns (l : list poll) (s : state) (rest : list poll) :
  pending s = l →
  (∃ s', poll_loop s = (Return tt, s') ∧ pending s' = rest) ↔
  (∃ pre ev, l = pre ++ ev :: rest ∧
             Forall (passes todecimal max_str_digits (frames me)) pre ∧
             reaches todecimal max_str_digits (frames me) ev).
Proof.
  revert s. induction l as [|ev l IH]; intros s Hp.
  - rewrite poll_loop_nil by done. split.
    + intros (s' & [=] & _).
    + intros (pre & ev & Hl & _). by destruct pre.
  - rewrite (poll_loop_cons s ev l Hp).
    destruct (verdict ev) as [[|]|e|] eqn:Hv.
    + split.
      * intros (s' & [= <-] & <-). exists [], ev. simpl.
        split; [done|]. split; [constructor|]. by apply verdict_reaches.
      * intros ([|ev' pre] & ev'' & Hl & Hpre & Hev); simplify_eq/=.
        -- eexists. done.
        -- apply Forall_cons in Hpre as [Hpass%verdict_passes _]. congruence.
    + rewrite (IH (after s l (turn_trace ev)) eq_refl). split.
      * intros (pre & ev' & -> & Hpre & Hev). exists (ev :: pre), ev'.
        split; [done|]. split; [|done].
        constructor; [by apply verdict_passes|done].
      * intros ([|ev' pre] & ev'' & Hl & Hpre & Hev); simplify_eq/=.
        -- apply verdict_reaches in Hev. congruence.
        -- apply Forall_cons in Hpre as [_ Hpre]. by exists pre, ev''.
    + split; [by intros (s' & [=] & _)|].
      intros ([|ev' pre] & ev'' & Hl & Hpre & Hev); simplify_eq/=.
      * apply verdict_reaches in Hev. congruence.
      * apply Forall_cons in Hpre as [Hpass%verdict_passes _]. congruence.
    + by destruct (verdict_not_waiting ev).
Qed.

(** The loop ends in one of three ways, each with its cause among the
    pending events. *)
Lemma poll_loop_ends (l : list poll) (s : state) :
  pending s = l →
  (poll_loop s).1 = Waiting ∨
  ((poll_loop s).1 = Return tt ∧
     ∃ ev, ev ∈ l ∧ reaches todecimal max_str_digits (frames me) ev) ∨
  (∃ e ev, (poll_loop s).1 = Raise e ∧ ev ∈ l ∧ fails todecimal max_str_digits ev e).
Proof.
  revert s. induction l as [|ev l IH]; intros s Hp.
  - left. by rewrite poll_loop_nil.
  - rewrite (poll_loop_cons s ev l Hp).
    destruct (verdict ev) as [[|]|e|] eqn:Hv; simpl.
    + right; left. split; [done|]. exists ev. split; [left|by apply verdict_reaches].
    + destruct (IH (after s l (turn_trace ev)) eq_refl)
        as [Hw|[(Hr & ev' & Hin & Hev)|(e & ev' & Hr & Hin & Hev)]].
      * by left.
      * right; left. split; [done|]. exists ev'. split; [by right|done].
      * right; right. exists e, ev'. split; [done|]. split; [by right|done].
    + right; right. exists e, ev. split; [done|]. split; [left|by apply verdict_fails].
    + by left.
Qed.

Lemma verdict_stall (ev : poll) : stall ev → verdict ev = Return false.
Proof. intros Hev. apply verdict_passes. by left. Qed.

(** With nothing but stalls to take, the loop is still polling when they
    are used up. *)
Lemma poll_loop_stalls (l : list poll) (s : state) :
  pending s = l → Forall stall l →
  poll_loop s = (Waiting, after s [] (concat (turn_trace <$> l))).
Proof.
  revert s. induction l as [|ev l IH]; intros s Hp Hl.
  - rewrite poll_loop_nil by done. simpl.
    replace (after s [] []) with (after s (pending s) []) by (by rewrite Hp).
    by rewrite after_pending.
  - apply Forall_cons in Hl as [Hev Hl].
    rewrite (poll_loop_cons s ev l Hp), (verdict_stall ev Hev).
    rewrite (IH (after s l (turn_trace ev)) eq_refl Hl), after_after. done.
Qed.

(** Turns that let the loop go round again are gone through, each
    leaving its trace. *)
Lemma poll_loop_skip (l rest : list poll) (s : state) :
  pending s = l ++ rest →
  Forall (passes todecimal max_str_digits (frames me)) l →
  poll_loop s = poll_loop (after s rest (concat (turn_trace <$> l))).
Proof.
  revert s. induction l as [|ev l IH]; intros s Hp Hl.
  - cbn [app] in Hp. cbn [fmap list_fmap concat]. rewrite <- Hp.
    by rewrite after_pending.
  - apply Forall_cons in Hl as [Hev%verdict_passes Hl].
    rewrite (poll_loop_cons s ev (l ++ rest) Hp), Hev.
    rewrite (IH (after s (l ++ rest) _) eq_refl Hl), after_after. done.
Qed.

(** What the turn that reads a deciding line leaves in the trace. *)
Lemma turn_trace_reaches (output : bytes) :
  reaches todecimal max_str_digits (frames me) (Line output) →
  ∃ text, decode (bytes_strip output) = Some text ∧
          turn_trace (Line output) =
            [Select 5; Readline; Info text;
             Info (py "Max frame count reached, closing camera capture")].
Proof.
  intros Hev. pose proof (proj2 (verdict_reaches _) Hev) as Hv.
  destruct Hev as (output' & n & [= <-] & Hne%truthy_nonempty & Hn & Hlt).
  cbn [MobotixImager.turn_trace]. rewrite Hne. cbn [negb].
  unfold MobotixImager.frame_number in Hn.
  destruct (decode (bytes_strip output)) as [text|]; [|done].
  exists text. split; [done|]. by rewrite Hv.
Qed.

End Loop.

(** ** The capture process *)

Section Process.

Variable todecimal : N → option N.
Variable max_str_digits : nat.
Variable popen_error : option exn.
Variable child_exits : bool.
Variable thermal_raw : directory → directory.
Variable me : self.

Abbreviation get_camera_frames :=
  (get_camera_frames todecimal max_str_digits popen_error child_exits thermal_raw me).
Abbreviation poll_loop' := (poll_loop todecimal max_str_digits me).
Abbreviation passes' := (passes todecimal max_str_digits (frames me)).
Abbreviation reaches' := (reaches todecimal max_str_digits (frames me)).
Abbreviation fails' := (fails todecimal max_str_digits).

Lemma get_camera_frames_cases (s : state) :
  get_camera_frames s =
    let s0 := after s (pending s) [InfoCalling (thermal_raw_cmd me);
                                   Popen (thermal_raw_cmd me)] in
    match popen_error with
    | Some e => (Raise e, s0)
    | None =>
        match poll_loop' s0 with
        | (Waiting, s1) => (Waiting, s1)
        | (r, s1) => popen_exit child_exits thermal_raw r s1
        end
    end.
Proof.
  unfold MobotixImager.get_camera_frames, mbind, M_bind, log, with_popen, after.
  simpl. rewrite <- !(assoc_L (++)). simpl.
  destruct popen_error; done.
Qed.

(** Once a deciding line is read the call closes the pipe and waits for
    the process; what comes after the line is not read. *)
Lemma get_camera_frames_reaches (s : state) (pre rest : list poll) (ev : poll) :
  popen_error = None →
  pending s = pre ++ ev :: rest → Forall passes' pre → reaches' ev →
  get_camera_frames s =
    (if child_exits then Return tt else Waiting,
     {| pending := rest;
        files := if child_exits then thermal_raw (files s) else files s;
        trace := trace s ++
                 [InfoCalling (thermal_raw_cmd me); Popen (thermal_raw_cmd me)] ++
                 concat (turn_trace todecimal max_str_digits (frames me) <$> pre) ++
                 turn_trace todecimal max_str_digits (frames me) ev ++
                 [CloseStdout; WaitExit] |}).
Proof.
  intros Hopen Hp Hpre Hev. rewrite get_camera_frames_cases, Hopen. cbv zeta.
  set (s0 := after s (pending s) _).
  assert (pending s0 = pre ++ ev :: rest) as Hp0 by done.
  rewrite (poll_loop_skip todecimal max_str_digits me pre (ev :: rest) s0 Hp0 Hpre).
  erewrite poll_loop_cons; [|reflexivity].
  rewrite (proj2 (verdict_reaches todecimal max_str_digits me ev) Hev).
  unfold popen_exit, after. cbn [pending files trace s0 after].
  destruct child_exits; by rewrite <- !(assoc_L (++)).
Qed.

(** Leaving the [with] block does not turn one way of ending into
    another, except that a wait that does not end takes the place of
    any. *)
Lemma popen_exit_result {A} (r : result A) (s1 : state) :
  (popen_exit child_exits thermal_raw r s1).1 = r ∨
  (popen_exit child_exits thermal_raw r s1).1 = Waiting.
Proof.
  unfold popen_exit. destruct r as [a|e|]; [| |destruct child_exits; by left].
  - destruct child_exits; [by left|by right].
  - destruct e; try (destruct child_exits; [by left|by right]). by left.
Qed.


End Process.

(** ** Paths *)

Lemma rfind_dot_app (a b : pystr) :
  rfind_dot (a ++ b) =
    match rfind_dot b with
    | Some i => Some (length a + i)%nat
    | None => rfind_dot a
    end.
Proof.
  induction a as [|x a IH]; simpl.
  - by destruct (rfind_dot b).
  - rewrite IH. by destruct (rfind_dot b).
Qed.

(** A name with the suffix [.rgb] is a non-empty stem followed by it. *)
Lemma suffix_rgb (p : path) :
  suffix p = py ".rgb" →
  name p = stem p ++ py ".rgb" ∧ stem p ≠ [] ∧
  rfind_dot (name p) = Some (length (stem p)).
Proof.
  unfold suffix, stem.
  destruct (rfind_dot (name p)) as [i|] eqn:Hdot; [|done].
  case_bool_decide as Hi; [|done]. intros Hsfx.
  rewrite <- Hsfx, take_drop. split; [done|].
  split.
  - intros Hnil. apply (f_equal length) in Hnil.
    rewrite length_take in Hnil. simpl in Hnil. lia.
  - rewrite length_take. f_equal. lia.
Qed.

Lemma with_suffix_rgb (p : path) :
  suffix p = py ".rgb" → with_suffix p (py ".jpg") = Return (jpg_sibling p).
Proof.
  intros Hsfx. destruct (suffix_rgb p Hsfx) as (Hname & Hstem & _).
  unfold with_suffix, jpg_sibling. rewrite Hsfx.
  destruct (name p) as [|x n] eqn:Hn; [by destruct (stem p)|].
  simpl truthy. cbv iota. simpl negb. cbv iota. do 2 f_equal.
  rewrite Hname at 2. rewrite Hname at 1.
  rewrite length_app. simpl length.
  replace (length (stem p) + 4 - 4)%nat with (length (stem p)) by lia.
  by rewrite take_app_length.
Qed.

Lemma jpg_sibling_parts (p : path) :
  suffix p = py ".rgb" →
  parent (jpg_sibling p) = parent p ∧
  stem (jpg_sibling p) = stem p ∧
  suffix (jpg_sibling p) = py ".jpg" ∧
  name (jpg_sibling p) ≠ name p.
Proof.
  intros Hsfx. destruct (suffix_rgb p Hsfx) as (Hname & Hstem & _).
  assert (length (stem p) ≠ 0)%nat as Hlen by (by destruct (stem p)).
  split; [done|].
  assert (rfind_dot (name (jpg_sibling p)) = Some (length (stem p))) as Hdot.
  { unfold jpg_sibling. simpl. rewrite rfind_dot_app. simpl. f_equal. lia. }
  unfold stem at 1, suffix. rewrite Hdot.
  assert (length (name (jpg_sibling p)) = length (stem p) + 4)%nat as Hl
    by (unfold jpg_sibling; simpl; by rewrite length_app).
  rewrite Hl, bool_decide_true by lia.
  unfold jpg_sibling. simpl.
  rewrite take_app_length, drop_app_length.
  repeat split; try done.
  rewrite Hname. intros Heq%(inj (app (stem p))). done.
Qed.

(** ** The working directory *)

Lemma elem_of_names (d : directory) (n : pystr) :
  n ∈ d.*1 ↔ ∃ c, (n, c) ∈ d.
Proof.
  rewrite list_elem_of_fmap. split.
  - intros ([n' c] & -> & Hin). by exists c.
  - intros (c & Hin). by exists (n, c).
Qed.

Lemma elem_of_remove (d : directory) (n n' : pystr) (c : bytes) :
  (n', c) ∈ remove n d ↔ n' ≠ n ∧ (n', c) ∈ d.
Proof. unfold remove. by rewrite list_elem_of_filter. Qed.

Lemma names_remove (d : directory) (n n' : pystr) :
  n' ∈ (remove n d).*1 ↔ n' ≠ n ∧ n' ∈ d.*1.
Proof.
  rewrite !elem_of_names. setoid_rewrite elem_of_remove. split.
  - intros (c & Hne & Hin). split; [done|]. by exists c.
  - intros (Hne & c & Hin). by exists c.
Qed.

Lemma exists_in_names (d : directory) (n : pystr) :
  exists_in d n = true ↔ n ∈ d.*1.
Proof. unfold exists_in. by rewrite bool_decide_eq_true. Qed.

(** ** Conversion *)

Section Conversion.

Variable todecimal : N → option N.
Variable ffmpeg : pystr → pystr → pystr → directory → run_outcome * directory.
Variable me : self.

Abbreviation convert_rgb_to_jpg := (convert_rgb_to_jpg todecimal ffmpeg).

(** What [convert_rgb_to_jpg] does with a [.rgb] path, case by case. *)
Lemma convert_cases (p : path) (s : state) :
  suffix p = py ".rgb" →
  convert_rgb_to_jpg p s =
    match re_search todecimal resolution_re (stem p) with
    | None =>
        (Raise (AttributeError (py "'NoneType' object has no attribute 'group'")), s)
    | Some m =>
        let ran := ffmpeg (group m) (name p) (name (jpg_sibling p)) (files s) in
        let cmd := ffmpeg_cmd (group m) p (jpg_sibling p) in
        match ran.1 with
        | Completed rc _ =>
            if bool_decide (rc = 0) then
              if exists_in ran.2 (name p)
              then (Return (jpg_sibling p),
                    {| pending := pending s; files := remove (name p) ran.2;
                       trace := trace s ++ [Run cmd; DebugRemoving (path_str p);
                                            Unlink (path_str p)] |})
              else (Raise (FileNotFoundError (path_str p)),
                    {| pending := pending s; files := ran.2;
                       trace := trace s ++ [Run cmd; DebugRemoving (path_str p);
                                            Unlink (path_str p)] |})
            else (Raise (CalledProcessError rc),
                  {| pending := pending s; files := ran.2; trace := trace s ++ [Run cmd] |})
        | RunRaises e =>
            (Raise e,
             {| pending := pending s; files := ran.2; trace := trace s ++ [Run cmd] |})
        end
    end.
Proof.
  intros Hsfx.
  unfold MobotixImager.convert_rgb_to_jpg, mbind, M_bind, lift.
  rewrite (with_suffix_rgb p Hsfx).
  unfold extract_resolution.
  destruct (re_search todecimal resolution_re (stem p)) as [m|]; [|done].
  unfold run_ffmpeg, mret, M_ret. cbv beta iota zeta.
  destruct (ffmpeg _ _ _ _) as [[rc out|e] d]; cbn [fst snd]; [|done].
  case_bool_decide as Hrc.
  - by rewrite bool_decide_false.
  - rewrite bool_decide_true by (by destruct (decide (rc = 0))).
    unfold unlink, log. cbn [pending files trace].
    destruct (exists_in d (name p)); by rewrite <- !(assoc_L (++)).
Qed.

(** Two runs of the converter on the same input ended the same way. *)
Local Ltac same_run Hran Hran' :=
  cbn [name jpg_sibling] in Hran, Hran'; rewrite Hran in Hran'; simplify_eq.

(** C3. For a raw file that is in the working directory, with a
    converter that touches no file but its output and has written it when
    it exits with 0: after [convert_rgb_to_jpg] the raw file is gone exactly
    when the converter ran and exited with 0; in that case the call returns
    the sibling path (same directory, same stem, suffix [.jpg]) and that
    file is in the directory; when the converter exits with another
    status the call raises [CalledProcessError] with that status and the
    raw file is in the directory as it was. *)
Theorem convert_deletes_iff_converted (p : path) (s : state) :
  writes_only_output ffmpeg →
  success_writes_output ffmpeg →
  suffix p = py ".rgb" →
  name p ∈ (files s).*1 →
  let res := convert_rgb_to_jpg p s in
  let succeeded :=
    ∃ m out d,
      re_search todecimal resolution_re (stem p) = Some m ∧
      ffmpeg (group m) (name p) (name (jpg_sibling p)) (files s) = (Completed 0 out, d) in
  (name p ∉ (files res.2).*1 ↔ succeeded) ∧
  (succeeded →
     res.1 = Return (jpg_sibling p) ∧
     name (jpg_sibling p) ∈ (files res.2).*1 ∧
     parent (jpg_sibling p) = parent p ∧
     stem (jpg_sibling p) = stem p ∧
     suffix (jpg_sibling p) = py ".jpg") ∧
  (∀ m rc out d,
     re_search todecimal resolution_re (stem p) = Some m →
     ffmpeg (group m) (name p) (name (jpg_sibling p)) (files s) = (Completed rc out, d) →
     rc ≠ 0 →
     res.1 = Raise (CalledProcessError rc) ∧
     ∀ c, (name p, c) ∈ files res.2 ↔ (name p, c) ∈ files s).
Proof.
  intros Hwo Hsw Hsfx Hin res succeeded. subst res succeeded.
  destruct (jpg_sibling_parts p Hsfx) as (Hpar & Hst & Hsf & Hne).
  rewrite (convert_cases p s Hsfx).
  destruct (re_search todecimal resolution_re (stem p)) as [m|] eqn:Hm.
  2: { simpl. split; [|split].
       - split; [done|]. by intros (m & _ & _ & [=] & _).
       - by intros (m & _ & _ & [=] & _).
       - by intros m rc out d [=]. }
  cbv zeta.
  assert (∀ c, (name p, c) ∈
               (ffmpeg (group m) (name p) (name (jpg_sibling p)) (files s)).2
               ↔ (name p, c) ∈ files s) as Hkeep
    by (intros c; apply Hwo; congruence).
  assert (name p ∈
            (ffmpeg (group m) (name p) (name (jpg_sibling p)) (files s)).2.*1)
    as Hstill.
  { apply elem_of_names in Hin as [c Hc]. apply elem_of_names. exists c.
    by apply Hkeep. }
  destruct (ffmpeg (group m) (name p) (name (jpg_sibling p)) (files s))
    as [[rc out|e] d] eqn:Hran; cbn [fst snd] in *.
  - case_bool_decide as Hrc.
    + subst rc. apply exists_in_names in Hstill as Hex. rewrite Hex. simpl.
      assert (name (jpg_sibling p) ∈ (remove (name p) d).*1) as Hjpg.
      { apply names_remove. split; [done|]. by apply (Hsw _ _ _ _ _ _ Hran). }
      split; [|split].
      * split; [intros _; by exists m, out, d|].
        intros _ [? _]%names_remove. done.
      * done.
      * intros m' rc' out' d' [= <-] Hran' Hrc'.
        by same_run Hran Hran'.
    + simpl. split; [|split].
      * split; [done|]. intros (m' & out' & d' & [= <-] & Hran').
        by same_run Hran Hran'.
      * intros (m' & out' & d' & [= <-] & Hran').
        by same_run Hran Hran'.
      * intros m' rc' out' d' [= <-] Hran' _.
        by same_run Hran Hran'.
  - simpl. split; [|split].
    + split; [done|]. intros (m' & out' & d' & [= <-] & Hran').
      by same_run Hran Hran'.
    + intros (m' & out' & d' & [= <-] & Hran').
      by same_run Hran Hran'.
    + intros m' rc' out' d' [= <-] Hran' _.
      by same_run Hran Hran'.
Qed.

Lemma for_tspath_last (entries : list pystr) (s : state) (tspath : option path) :
  writes_only_output ffmpeg →
  always_succeeds ffmpeg →
  NoDup entries →
  (∀ n, n ∈ entries → suffix (in_workdir me n) = py ".rgb" →
        n ∈ (files s).*1 ∧
        is_Some (re_search todecimal resolution_re (stem (in_workdir me n)))) →
  ∃ s',
    for_tspath todecimal ffmpeg (in_workdir me <$> entries) tspath s =
      (Return (match last entries with
               | Some n => Some (converted (in_workdir me n))
               | None => tspath
               end), s').
Proof.
  intros Hwo Hok. revert s tspath.
  induction entries as [|n rest IH]; intros s tspath Hnd Hraw.
  - by exists s.
  - apply NoDup_cons in Hnd as [Hn Hnd].
    assert (∀ p : path,
              (match last rest with
               | Some n' => Some (converted (in_workdir me n'))
               | None => Some p
               end) =
              (match last (n :: rest) with
               | Some n' => Some (converted (in_workdir me n'))
               | None => tspath
               end) ↔ p = converted (in_workdir me n) ∨ is_Some (last rest))
      as Hlast.
    { intros p. rewrite last_cons. destruct (last rest) as [n'|].
      - split; [right; by eexists|done].
      - split; [intros [= ->]; by left|]. intros [->|[? [=]]]. done. }
    cbn [fmap list_fmap for_tspath]. unfold mbind, M_bind.
    case_bool_decide as Hsfx.
    + destruct (Hraw n) as [Hin [m Hm]]; [left|done|].
      destruct (jpg_sibling_parts _ Hsfx) as (_ & _ & Hsf & Hne).
      rewrite (convert_cases _ s Hsfx), Hm. cbv zeta.
      change (name (in_workdir me n)) with n.
      destruct (Hok (group m) n (name (jpg_sibling (in_workdir me n))) (files s))
        as [out Hout].
      pose proof (Hwo (group m) n (name (jpg_sibling (in_workdir me n))) (files s))
        as Hkeep.
      destruct (ffmpeg (group m) n (name (jpg_sibling (in_workdir me n))) (files s))
        as [outcome d]; cbn [fst snd] in *. subst outcome.
      rewrite bool_decide_true by done.
      assert (∀ n', n' ∈ (files s).*1 →
                    n' ≠ name (jpg_sibling (in_workdir me n)) → n' ∈ d.*1)
        as Hstill.
      { intros n' [c Hc]%elem_of_names Hn'. apply elem_of_names. exists c.
        by apply Hkeep. }
      rewrite (proj2 (exists_in_names d n))
        by (apply Hstill; [done|intros Heq; apply Hne; symmetry; exact Heq]).
      cbv beta iota.
      set (s1 := {| pending := pending s; files := remove n d; trace := _ |}).
      destruct (IH s1 (Some (jpg_sibling (in_workdir me n))) Hnd) as [s' Hs'].
      { intros n' Hn' Hsfx'. destruct (Hraw n') as [Hin' Hres]; [by right|done|].
        split; [|done]. cbn [files s1]. apply names_remove.
        split; [by intros ->|]. apply Hstill; [done|].
        intros ->.
        change (in_workdir me (name (jpg_sibling (in_workdir me n))))
          with (jpg_sibling (in_workdir me n)) in Hsfx'.
        rewrite Hsf in Hsfx'. discriminate Hsfx'. }
      rewrite Hs'. exists s'. do 2 f_equal. apply Hlast.
      left. unfold converted. by rewrite bool_decide_true.
    + cbn [mret M_ret].
      destruct (IH s (Some (in_workdir me n)) Hnd) as [s' Hs'].
      { intros n' Hn' Hsfx'. apply Hraw; [by right|done]. }
      rewrite Hs'. exists s'. do 2 f_equal. apply Hlast.
      left. unfold converted. by rewrite bool_decide_false.
Qed.

(** C4, as the code has it. With a converter that exits with 0 and touches
    no file but its output, and raw file names that all carry a
    resolution: the loop over the directory ends with the last entry
    listed, and what is returned is the [.jpg] sibling of that entry when
    it is a raw file and the entry itself when it is not. *)
Theorem convert_all_returns_last (s : state) (n : pystr) :
  writes_only_output ffmpeg →
  always_succeeds ffmpeg →
  NoDup (files s).*1 →
  (∀ n', n' ∈ (files s).*1 → suffix (in_workdir me n') = py ".rgb" →
         is_Some (re_search todecimal resolution_re (stem (in_workdir me n')))) →
  last (files s).*1 = Some n →
  (convert_all todecimal ffmpeg me s).1 =
    Return (if bool_decide (suffix (in_workdir me n) = py ".rgb")
            then jpg_sibling (in_workdir me n)
            else in_workdir me n).
Proof.
  intros Hwo Hok Hnd Hres Hlast.
  unfold MobotixImager.convert_all, glob, listdir, mbind, M_bind, log, mret, M_ret.
  cbn [fst snd files].
  edestruct (for_tspath_last (files s).*1
               {| pending := pending s; files := files s;
                  trace := trace s ++ [Scandir (workdir me)] |} None Hwo Hok Hnd)
    as [s' Hs']; [by intros n' Hn' Hsfx'; split; [|apply Hres]|].
  rewrite Hs', Hlast. done.
Qed.

End Conversion.

(** ** Capture *)

Section Capture.

Variable todecimal : N → option N.
Variable max_str_digits : nat.
Variable mkdir_error popen_error : option exn.
Variable child_exits : bool.
Variable thermal_raw : directory → directory.
Variable ffmpeg : pystr → pystr → pystr → directory → run_outcome * directory.
Variable me : self.

Abbreviation try_body :=
  (try_body todecimal max_str_digits mkdir_error popen_error child_exits thermal_raw me).
Abbreviation capture_frames :=
  (capture_frames todecimal max_str_digits mkdir_error popen_error child_exits
     thermal_raw me).
Abbreviation convert_all := (convert_all todecimal ffmpeg me).
Abbreviation capture :=
  (capture todecimal max_str_digits mkdir_error popen_error child_exits thermal_raw
     ffmpeg me).

Lemma capture_frames_cases (s : state) :
  capture_frames s =
    match try_body s with
    | (Return _, s1) => (Return tt, s1)
    | (Raise e, s1) =>
        if is_Exception e
        then (Raise (ExceptionFrom e), after s1 (pending s1) [LogException e])
        else (Raise e, s1)
    | (Waiting, s1) => (Waiting, s1)
    end.
Proof.
  unfold MobotixImager.capture_frames, try_except.
  destruct (try_body s) as [[[]|e|] s1]; done.
Qed.

(** C9, as the code has it. When the body of the [try] statement (the
    creation of the working directory, the start of the capture process,
    the polling loop) raises, [capture] raises too and nothing is
    converted: an exception that is an [Exception] is logged and a new
    [Exception] made from it is raised; one that is not (an interrupt, an
    exit) goes to the caller as it is, without a log entry. *)
Theorem capture_raises_with_try_body (s s1 : state) (e : exn) :
  try_body s = (Raise e, s1) →
  capture s =
    if is_Exception e
    then (Raise (ExceptionFrom e), after s1 (pending s1) [LogException e])
    else (Raise e, s1).
Proof.
  intros Hbody. unfold MobotixImager.capture, mbind, M_bind.
  rewrite capture_frames_cases, Hbody. by destruct (is_Exception e).
Qed.

Lemma convert_all_empty (s : state) :
  files s = [] →
  convert_all s =
    (Raise (UnboundLocalError (py "tspath")), after s (pending s) [Scandir (workdir me)]).
Proof.
  destruct s as [events d tr]. simpl. intros ->. reflexivity.
Qed.

(** C10. When the [try] statement of [capture] has returned and the
    working directory has no entry, [capture] raises [UnboundLocalError]
    for [tspath], right after listing the directory: it returns no path. *)
Theorem capture_empty_directory (s s1 : state) :
  capture_frames s = (Return tt, s1) →
  files s1 = [] →
  capture s =
    (Raise (UnboundLocalError (py "tspath")), after s1 (pending s1) [Scandir (workdir me)]).
Proof.
  intros Hframes Hfiles. unfold MobotixImager.capture, mbind, M_bind.
  rewrite Hframes. by apply convert_all_empty.
Qed.

End Capture.

(** ** Runs on concrete processes and directories *)

Import Examples.

Lemma ffmpeg_ok_writes_only_output : writes_only_output ffmpeg_ok.
Proof.
  intros dims i o d n c Hne. unfold ffmpeg_ok. simpl.
  rewrite elem_of_app, elem_of_remove, list_elem_of_singleton. split.
  - intros [[_ Hin]|[= Hn _]]; done.
  - intros Hin. by left.
Qed.

Lemma ffmpeg_ok_success_writes_output : success_writes_output ffmpeg_ok.
Proof.
  intros dims i o d out d' [= _ <-].
  rewrite fmap_app, elem_of_app. right. simpl. left.
Qed.

Lemma ffmpeg_ok_always_succeeds : always_succeeds ffmpeg_ok.
Proof. intros dims i o d. by exists []. Qed.

Lemma ffmpeg_broken_writes_only_output : writes_only_output ffmpeg_broken.
Proof. intros dims i o d n c Hne. done. Qed.

Lemma ffmpeg_broken_success_writes_output : success_writes_output ffmpeg_broken.
Proof. intros dims i o d out d' [=]. Qed.

(** The stream of the specification: with a target of 2 the call returns
    on [frame #3] and leaves [frame #4] unread. *)
Example three_frames_stop_at_third :
  let res := get_camera_frames ascii_decimal 0 None true id imager (start three_frames []) in
  res.1 = Return tt ∧ pending res.2 = [Line (py "frame #4" ++ [10%N])].
Proof. split; vm_compute; reflexivity. Qed.

(** The first match of the line decides: here it is frame 1. *)
Example first_match_decides :
  frame_number ascii_decimal 0 (py "frame #1 frame #9") = Return (Some 1).
Proof. vm_compute. reflexivity. Qed.

(** A line that is not UTF-8 ends the call with an exception. *)
Example undecodable_line_raises :
  (get_camera_frames ascii_decimal 0 None true id imager (start [Line [255%N]] [])).1 =
    Raise UnicodeDecodeError.
Proof. vm_compute. reflexivity. Qed.


Lemma convert_deletes_iff_converted_witness :
  let p := in_workdir imager raw1 in
  let s := start [] two_raw in
  let res := convert_rgb_to_jpg ascii_decimal ffmpeg_ok p s in
  writes_only_output ffmpeg_ok ∧ success_writes_output ffmpeg_ok ∧
  suffix p = py ".rgb" ∧ name p ∈ (files s).*1 ∧
  res.1 = Return (jpg_sibling p) ∧
  (name p ∉ (files res.2).*1) ∧
  name (jpg_sibling p) ∈ (files res.2).*1 ∧
  name (jpg_sibling p) = py "1000_cam_320x240.jpg".
Proof.
  intros p s res.
  assert (suffix p = py ".rgb") as Hsfx by (vm_compute; reflexivity).
  assert (name p ∈ (files s).*1) as Hin by (simpl; left).
  pose proof (convert_deletes_iff_converted ascii_decimal ffmpeg_ok p s
                ffmpeg_ok_writes_only_output ffmpeg_ok_success_writes_output
                Hsfx Hin) as (Hiff & Hyes & _).
  assert (∃ m out d,
            re_search ascii_decimal resolution_re (stem p) = Some m ∧
            ffmpeg_ok (group m) (name p) (name (jpg_sibling p)) (files s) =
              (Completed 0 out, d)) as Hran
    by (do 3 eexists; split; vm_compute; reflexivity).
  destruct (Hyes Hran) as (Hres & Hjpg & _).
  split; [apply ffmpeg_ok_writes_only_output|].
  split; [apply ffmpeg_ok_success_writes_output|].
  split; [exact Hsfx|]. split; [exact Hin|]. split; [exact Hres|].
  split; [by apply Hiff|]. split; [exact Hjpg|].
  vm_compute. reflexivity.
Defined.

(** A converter that exits with 1: the error surfaces and the raw file
    stays. *)
Example convert_broken :
  let res := convert_rgb_to_jpg ascii_decimal ffmpeg_broken
               (in_workdir imager raw1) (start [] two_raw) in
  res.1 = Raise (CalledProcessError 1) ∧ files res.2 = two_raw.
Proof. split; vm_compute; reflexivity. Qed.

(** C4 fails on the code: the directory has a raw file, every conversion
    succeeds, and what is returned is the entry listed last, a text file,
    not the converted sibling of a raw file. *)
Lemma convert_all_returns_unconverted :
  let res := convert_all ascii_decimal ffmpeg_ok imager (start [] raw_then_notes) in
  (∃ n, n ∈ raw_then_notes.*1 ∧ suffix (in_workdir imager n) = py ".rgb") ∧
  res.1 = Return (in_workdir imager (py "notes.txt")) ∧
  ∀ n, n ∈ raw_then_notes.*1 → suffix (in_workdir imager n) = py ".rgb" →
       res.1 ≠ Return (jpg_sibling (in_workdir imager n)).
Proof.
  cbv zeta.
  assert ((convert_all ascii_decimal ffmpeg_ok imager (start [] raw_then_notes)).1 =
            Return (in_workdir imager (py "notes.txt"))) as Hres
    by (vm_compute; reflexivity).
  split; [exists raw1; split; [left|vm_compute; reflexivity]|].
  split; [exact Hres|].
  intros n Hn Hsfx. rewrite Hres. intros Heq.
  assert (in_workdir imager (py "notes.txt") = jpg_sibling (in_workdir imager n))
    as Hpath by congruence.
  apply (f_equal suffix) in Hpath.
  rewrite (proj1 (proj2 (proj2 (jpg_sibling_parts _ Hsfx)))) in Hpath.
  vm_compute in Hpath. discriminate Hpath.
Qed.

Lemma convert_all_returns_last_witness :
  writes_only_output ffmpeg_ok ∧ always_succeeds ffmpeg_ok ∧
  NoDup (files (start [] two_raw)).*1 ∧
  (∀ n', n' ∈ (files (start [] two_raw)).*1 →
         suffix (in_workdir imager n') = py ".rgb" →
         is_Some (re_search ascii_decimal resolution_re (stem (in_workdir imager n')))) ∧
  last (files (start [] two_raw)).*1 = Some raw2 ∧
  (convert_all ascii_decimal ffmpeg_ok imager (start [] two_raw)).1 =
    Return {| parent := py "/data"; name := py "1001_cam_320x240.jpg" |}.
Proof.
  assert (NoDup (files (start [] two_raw)).*1) as Hnd by compute_done.
  assert (∀ n', n' ∈ (files (start [] two_raw)).*1 →
                suffix (in_workdir imager n') = py ".rgb" →
                is_Some (re_search ascii_decimal resolution_re
                           (stem (in_workdir imager n')))) as Hres.
  { intros n' Hn' _. simpl in Hn'.
    rewrite !elem_of_cons, elem_of_nil in Hn'.
    destruct Hn' as [->|[->|[]]]; vm_compute; by eexists. }
  split; [apply ffmpeg_ok_writes_only_output|].
  split; [apply ffmpeg_ok_always_succeeds|].
  split; [exact Hnd|]. split; [exact Hres|]. split; [reflexivity|].
  exact (convert_all_returns_last ascii_decimal ffmpeg_ok imager (start [] two_raw) raw2
           ffmpeg_ok_writes_only_output ffmpeg_ok_always_succeeds Hnd Hres eq_refl).
Defined.

(** C9 fails on the code: an interrupt while [select] waits is not an
    [Exception]; [capture] lets it through as it is and logs nothing. *)
Lemma capture_interrupt_not_logged :
  let s := start [SelectFails KeyboardInterrupt] [] in
  let res := capture ascii_decimal 0 None None true id ffmpeg_ok imager s in
  (try_body ascii_decimal 0 None None true id imager s).1 = Raise KeyboardInterrupt ∧
  res.1 = Raise KeyboardInterrupt ∧
  ∀ e, LogException e ∉ trace res.2.
Proof.
  cbv zeta. split; [vm_compute; reflexivity|]. split; [vm_compute; reflexivity|].
  intros e He. vm_compute in He.
  repeat (apply elem_of_cons in He as [He|He]; [discriminate He|]).
  by apply elem_of_nil in He.
Qed.

Lemma capture_raises_with_try_body_witness :
  let s := start [Line [255%N]] [] in
  let s1 := (try_body ascii_decimal 0 None None true id imager s).2 in
  try_body ascii_decimal 0 None None true id imager s = (Raise UnicodeDecodeError, s1) ∧
  capture ascii_decimal 0 None None true id ffmpeg_ok imager s =
    (Raise (ExceptionFrom UnicodeDecodeError),
     after s1 (pending s1) [LogException UnicodeDecodeError]).
Proof.
  intros s s1.
  assert (try_body ascii_decimal 0 None None true id imager s = (Raise UnicodeDecodeError, s1))
    as Hbody by (vm_compute; reflexivity).
  split; [exact Hbody|].
  exact (capture_raises_with_try_body ascii_decimal 0 None None true id ffmpeg_ok imager
           s s1 UnicodeDecodeError Hbody).
Defined.

Lemma capture_empty_directory_witness :
  let s := start three_frames [] in
  let s1 := (capture_frames ascii_decimal 0 None None true id imager s).2 in
  capture_frames ascii_decimal 0 None None true id imager s = (Return tt, s1) ∧
  files s1 = [] ∧
  capture ascii_decimal 0 None None true id ffmpeg_ok imager s =
    (Raise (UnboundLocalError (py "tspath")),
     after s1 (pending s1) [Scandir (workdir imager)]).
Proof.
  intros s s1.
  assert (capture_frames ascii_decimal 0 None None true id imager s = (Return tt, s1))
    as Hframes by (vm_compute; reflexivity).
  assert (files s1 = []) as Hfiles by (vm_compute; reflexivity).
  split; [exact Hframes|]. split; [exact Hfiles|].
  exact (capture_empty_directory ascii_decimal 0 None None true id ffmpeg_ok imager
           s s1 Hframes Hfiles).
Defined.

End ImagerFacts.

(** * More about MobotixPT *)

Module PTMore.
Import MobotixPT PTFacts.

Lemma runs_app (t1 t2 : list action) : runs (t1 ++ t2) = runs t1 ++ runs t2.
Proof. apply List.filter_app. Qed.

Lemma runs_printed (printed : list action) :
  Forall (λ a, ∃ e, a = PrintError e) printed → runs printed = [].
Proof.
  induction 1 as [|a printed [e ->] _ IH]; [done|]. simpl. exact IH.
Qed.

Lemma send_command_tidy camera me (code : pystr) (s : state) :
  known_code code → tidy me s → tidy me (_send_command camera me code s).2.
Proof.
  intros Hcode [Hcalls Hall].
  destruct (send_command_trace camera me code s) as (printed & Htr & Hc & Hpr).
  split.
  - rewrite Hc, Htr, runs_app, length_app, Hcalls. simpl.
    rewrite (runs_printed printed Hpr). simpl. lia.
  - rewrite Htr. apply Forall_app. split; [done|].
    constructor; [by exists code|].
    eapply Forall_impl; [exact Hpr|]. by intros a [e ->].
Qed.

Lemma sleep_tidy me (duration : Z) (s : state) :
  tidy me s → tidy me (sleep duration s).2.
Proof.
  intros [Hcalls Hall]. unfold sleep. case_bool_decide; [done|].
  destruct (duration <? 0); [done|].
  split; simpl.
  - by rewrite runs_app, length_app, Hcalls, Nat.add_0_r.
  - apply Forall_app. split; [done|]. by repeat constructor.
Qed.

Lemma perform_tidy camera me (r : request) (s : state) :
  tidy me s → tidy me (perform camera me r s).2.
Proof.
  intros Hs. destruct r as [pt_id|direction speed duration| |]; cbn [perform].
  - unfold move_to_preset. cbv zeta.
    destruct (presets !! pt_id) as [code|] eqn:Hcode; [|done].
    destruct (truthy code); [|done].
    apply send_command_tidy; [|done]. left. by exists pt_id.
  - unfold move.
    destruct (speed_codes !! direction) as [by_speed|] eqn:Hdir; [|done].
    destruct (by_speed !! speed) as [code|] eqn:Hcode; [|done].
    destruct (truthy code); [|done].
    assert (known_code code) as Hknown.
    { right; left. exists direction, speed. by rewrite Hdir. }
    pose proof (send_command_tidy camera me code s Hknown Hs) as H1.
    unfold mbind, M_bind.
    destruct (_send_command camera me code s) as [[v|e|] s1]; [|done..].
    pose proof (sleep_tidy me duration s1 H1) as H2.
    destruct (sleep duration s1) as [[[]|e|] s2]; [|done..].
    assert (known_code stop_code) as Hstop by (right; right; by left).
    pose proof (send_command_tidy camera me stop_code s2 Hstop H2) as H3.
    unfold stop.
    destruct (_send_command camera me stop_code s2) as [[v'|e|] s3]; done.
  - apply send_command_tidy; [|done]. right; right; by left.
  - apply send_command_tidy; [|done]. right; right; by right.
Qed.

(** X1. Whatever the camera answers and whatever is asked of the
    controller (presets, moves, stops, resets, valid or not, in any
    order), it has started as many sub-processes as it has counted, and
    each of them is curl posting to its camera, with its credentials, a
    code of the two tables or one of the two constants. *)
Theorem session_posts_known_codes camera me (rs : list request) :
  let s := session camera me rs init in
  calls s = length (runs (trace s)) ∧ Forall (posts_known_code me) (trace s).
Proof.
  cbv zeta. change (tidy me (session camera me rs init)).
  assert (tidy me init) as Hinit by (split; [done|constructor]).
  revert Hinit. generalize init.
  induction rs as [|r rs IH]; intros s Hs; [exact Hs|].
  cbn [session]. apply IH. by apply perform_tidy.
Qed.

Lemma preset_frames_distinct :
  Forall (λ i, Forall (λ j, preset_frame i = preset_frame j → i = j) (seqZ 1 32))
         (seqZ 1 32).
Proof. compute_done. Qed.

Lemma speed_frames_distinct :
  Forall (λ d1, Forall (λ v1, Forall (λ d2, Forall (λ v2,
            speed_frame d1 v1 = speed_frame d2 v2 → d1 = d2 ∧ v1 = v2)
          (seqZ 1 5)) directions) (seqZ 1 5)) directions.
Proof. compute_done. Qed.

Lemma preset_speed_frames_distinct :
  Forall (λ i, Forall (λ d, Forall (λ v, preset_frame i ≠ speed_frame d v)
          (seqZ 1 5)) directions) (seqZ 1 32).
Proof. compute_done. Qed.

Lemma table_frames_not_constants :
  Forall (λ i, preset_frame i ≠ stop_code ∧ preset_frame i ≠ reset_code) (seqZ 1 32) ∧
  Forall (λ d, Forall (λ v, speed_frame d v ≠ stop_code ∧ speed_frame d v ≠ reset_code)
          (seqZ 1 5)) directions.
Proof. split; compute_done. Qed.

Lemma presets_entry (pt_id : Z) (code : pystr) :
  presets !! pt_id = Some code → pt_id ∈ seqZ 1 32 ∧ code = preset_frame pt_id.
Proof.
  rewrite presets_lookup, elem_of_seqZ. case_bool_decide; [|done].
  intros [= <-]. split; [lia|done].
Qed.

Lemma speed_entry (direction : pystr) (speed : Z) (code : pystr) :
  (speed_codes !! direction) ≫= (.!! speed) = Some code →
  direction ∈ directions ∧ speed ∈ seqZ 1 5 ∧ code = speed_frame direction speed.
Proof.
  intros (Hd & Hv & ->)%speed_codes_entry. rewrite elem_of_seqZ.
  split; [done|]. split; [lia|done].
Qed.

(** X2. No two commands of the class share a wire code: the preset table
    and the speed table are one-to-one, no preset code is a move code, and
    neither the stop code nor the reset code is in a table. *)
Theorem wire_codes_distinct :
  (∀ i j code, presets !! i = Some code → presets !! j = Some code → i = j) ∧
  (∀ d1 v1 d2 v2 code,
     (speed_codes !! d1) ≫= (.!! v1) = Some code →
     (speed_codes !! d2) ≫= (.!! v2) = Some code → d1 = d2 ∧ v1 = v2) ∧
  (∀ i d v code,
     presets !! i = Some code → (speed_codes !! d) ≫= (.!! v) ≠ Some code) ∧
  (∀ i, presets !! i ≠ Some stop_code ∧ presets !! i ≠ Some reset_code) ∧
  (∀ d v, (speed_codes !! d) ≫= (.!! v) ≠ Some stop_code ∧
          (speed_codes !! d) ≫= (.!! v) ≠ Some reset_code) ∧
  stop_code ≠ reset_code.
Proof.
  pose proof preset_frames_distinct as Hpp.
  pose proof speed_frames_distinct as Hss.
  pose proof preset_speed_frames_distinct as Hps.
  pose proof table_frames_not_constants as [Hpc Hsc].
  repeat setoid_rewrite Forall_forall in Hpp.
  repeat setoid_rewrite Forall_forall in Hss.
  repeat setoid_rewrite Forall_forall in Hps.
  repeat setoid_rewrite Forall_forall in Hpc.
  repeat setoid_rewrite Forall_forall in Hsc.
  split; [|split; [|split; [|split; [|split]]]].
  - intros i j code [Hi ->]%presets_entry [Hj Heq]%presets_entry.
    by apply Hpp.
  - intros d1 v1 d2 v2 code (Hd1 & Hv1 & ->)%speed_entry (Hd2 & Hv2 & Heq)%speed_entry.
    by apply Hss.
  - intros i d v code [Hi ->]%presets_entry (Hd & Hv & Heq)%speed_entry.
    by apply (Hps i Hi d Hd v Hv).
  - intros i. split; intros [Hi Heq]%presets_entry;
      destruct (Hpc i Hi) as [Hs Hr]; congruence.
  - intros d v. split; intros (Hd & Hv & Heq)%speed_entry;
      destruct (Hsc d Hd v Hv) as [Hs Hr]; congruence.
  - discriminate.
Qed.


(** X4. With a direction and a speed of the table and a duration
    [time.sleep] does not take, [move] sends the move command and, when
    that send returns, raises on the state the send left: [OverflowError]
    for a duration beyond the range in either direction, [ValueError] for
    a negative one within it. The stop command is not sent. *)
Theorem move_sleep_refused camera me (direction : pystr) (speed duration : Z)
    (code : pystr) (v : pyval) (s s1 : state) :
  (speed_codes !! direction) ≫= (.!! speed) = Some code →
  duration < 0 ∨ sleep_max < duration →
  _send_command camera me code s = (Return v, s1) →
  move camera me direction speed duration s =
    (Raise (if bool_decide (-sleep_max ≤ duration < 0)
            then ValueError (py "sleep length must be non-negative")
            else OverflowError), s1) ∧
  runs (trace s1) = runs (trace s) ++ [Run (curl_cmd me code)].
Proof.
  intros (Hd & Hv & ->)%speed_codes_entry Hdur Hsend.
  rewrite move_cases, !bool_decide_true by done.
  unfold mbind at 1, M_bind at 1. rewrite Hsend.
  unfold mbind, M_bind, sleep.
  split.
  - case_bool_decide as Hmax.
    + rewrite bool_decide_false by lia. done.
    + rewrite bool_decide_true by lia.
      destruct (Z.ltb_spec duration 0) as [_|]; [done|lia].
  - destruct (send_command_trace camera me (speed_frame direction speed) s)
      as (printed & Htr & _ & Hpr).
    rewrite Hsend in Htr. cbn [snd] in Htr.
    rewrite Htr, runs_app. simpl. by rewrite (runs_printed printed Hpr).
Qed.

(** X5. No method hides a failure of the transport: when the next
    sub-process raises something other than [CalledProcessError] (the
    timeout of the decorator, curl missing), a method either raises that
    same exception after this one sub-process, or had nothing to send and
    left the state as it was. *)
Theorem perform_transport_failure camera me (r : request) (s : state) (e : exn) :
  (∀ cmd, camera (calls s) cmd = RunRaises e) →
  is_CalledProcessError e = false →
  (∃ code, perform camera me r s =
             (Raise e, {| calls := S (calls s);
                          trace := trace s ++ [Run (curl_cmd me code)] |})) ∨
  (perform camera me r s).2 = s.
Proof.
  intros Hcam He.
  assert (∀ code, _send_command camera me code s =
                    (Raise e, {| calls := S (calls s);
                                 trace := trace s ++ [Run (curl_cmd me code)] |}))
    as Hsend.
  { intros code. rewrite send_command_cases. cbv zeta. by rewrite Hcam, He. }
  destruct r as [pt_id|direction speed duration| |]; cbn [perform].
  - unfold move_to_preset. cbv zeta.
    destruct (presets !! pt_id) as [code|]; [|by right].
    destruct (truthy code); [|by right]. left. by exists code.
  - rewrite move_cases.
    case_bool_decide; [|by right]. case_bool_decide; [|by right].
    left. exists (speed_frame direction speed).
    unfold mbind at 1, M_bind at 1. by rewrite Hsend.
  - left. exists stop_code. apply Hsend.
  - left. exists reset_code. apply Hsend.
Qed.

Lemma move_sleep_refused_witness :
  (speed_codes !! py "left") ≫= (.!! 1) = Some (py "%FF%01%00%04%01%00%06") ∧
  (10000000000 < 0 ∨ sleep_max < 10000000000) ∧
  _send_command Examples.obedient Examples.pt (py "%FF%01%00%04%01%00%06") init =
    (Return (VStr (py "OK")),
     {| calls := 1;
        trace := [Run (curl_cmd Examples.pt (py "%FF%01%00%04%01%00%06"))] |}) ∧
  move Examples.obedient Examples.pt (py "left") 1 10000000000 init =
    (Raise OverflowError,
     {| calls := 1;
        trace := [Run (curl_cmd Examples.pt (py "%FF%01%00%04%01%00%06"))] |}).
Proof.
  assert ((speed_codes !! py "left") ≫= (.!! 1) = Some (py "%FF%01%00%04%01%00%06"))
    as Hcode by (vm_compute; reflexivity).
  assert (10000000000 < 0 ∨ sleep_max < 10000000000) as Hdur
    by (right; unfold sleep_max; lia).
  assert (_send_command Examples.obedient Examples.pt (py "%FF%01%00%04%01%00%06") init =
            (Return (VStr (py "OK")),
             {| calls := 1;
                trace := [Run (curl_cmd Examples.pt (py "%FF%01%00%04%01%00%06"))] |}))
    as Hsend by reflexivity.
  split; [exact Hcode|]. split; [exact Hdur|]. split; [exact Hsend|].
  exact (proj1 (move_sleep_refused Examples.obedient Examples.pt (py "left") 1 10000000000
                  _ _ init _ Hcode Hdur Hsend)).
Defined.

(** The three kinds of duration [time.sleep] refuses. *)
Example move_refused_durations :
  (move Examples.obedient Examples.pt (py "left") 1 (-2) init).1 =
    Raise (ValueError (py "sleep length must be non-negative")) ∧
  (move Examples.obedient Examples.pt (py "left") 1 9223372037 init).1 =
    Raise OverflowError ∧
  (move Examples.obedient Examples.pt (py "left") 1 (-9223372037) init).1 =
    Raise OverflowError ∧
  (move Examples.obedient Examples.pt (py "left") 1 9223372036 init).1 = Return VNone.
Proof. repeat split; vm_compute; reflexivity. Qed.

Lemma perform_transport_failure_witness :
  (∀ cmd, Examples.times_out (calls init) cmd = RunRaises TimeoutError) ∧
  is_CalledProcessError TimeoutError = false ∧
  ((∃ code, perform Examples.times_out Examples.pt (MoveToPreset 7) init =
              (Raise TimeoutError,
               {| calls := 1; trace := [Run (curl_cmd Examples.pt code)] |})) ∨
   (perform Examples.times_out Examples.pt (MoveToPreset 7) init).2 = init).
Proof.
  split; [reflexivity|]. split; [reflexivity|].
  exact (perform_transport_failure Examples.times_out Examples.pt (MoveToPreset 7)
           init TimeoutError (λ _, eq_refl) eq_refl).
Defined.

End PTMore.

(** * More about MobotixImager *)

Module ImagerMore.
Import MobotixImager ImagerFacts.

(** ** The regular expressions *)

Lemma exists_last_digit (w : pystr) : w ≠ [] → ∃ w' d, w = w' ++ [d].
Proof.
  induction w as [|d w' _] using rev_ind; [done|]. intros _. by exists w', d.
Qed.

Lemma take_app_minus {A} (a b : list A) :
  take (length (a ++ b) - length b) (a ++ b) = a.
Proof.
  rewrite length_app.
  replace (length a + length b - length b)%nat with (length a) by lia.
  apply take_app_length.
Qed.

Section Regex.

Variable todecimal : N → option N.

Lemma strip_prefix_Some (text s s' : pystr) :
  strip_prefix text s = Some s' ↔ s = text ++ s'.
Proof.
  revert s. induction text as [|t text IH]; intros s; simpl.
  - split; [by intros [= ->]|by intros ->].
  - destruct s as [|x s]; [done|]. case_bool_decide as Hx.
    + subst x. rewrite IH. split; [by intros ->|by intros [= ->]].
    + split; [done|]. intros [= -> _]. done.
Qed.

Lemma greedy_sound {R} (c : charclass) (s : pystr) (k : pystr → option R) (r : R) :
  greedy todecimal c s k = Some r →
  ∃ ds s', s = ds ++ s' ∧ ds ≠ [] ∧ Forall (λ x, in_class todecimal c x = true) ds ∧
           k s' = Some r.
Proof.
  induction s as [|x s IH]; simpl; [done|].
  destruct (in_class todecimal c x) eqn:Hx; [|done].
  destruct (greedy todecimal c s k) as [r'|] eqn:Hg.
  - intros [= ->]. destruct (IH eq_refl) as (ds & s' & -> & _ & Hds & Hk).
    exists (x :: ds), s'. repeat split; try done. by constructor.
  - intros Hk. exists [x], s. repeat split; try done. by repeat constructor.
Qed.

Lemma greedy_complete {R} (c : charclass) (x : N) (s : pystr) (k : pystr → option R) :
  in_class todecimal c x = true → is_Some (k s) → is_Some (greedy todecimal c (x :: s) k).
Proof.
  intros Hx Hk. simpl. rewrite Hx. by destruct (greedy todecimal c s k).
Qed.

(** A string all of one class, up to where the class ends: the greedy
    match takes all of it when what follows accepts that. *)
Lemma greedy_all {R} (c : charclass) (ds s : pystr) (k : pystr → option R) (r : R) :
  ds ≠ [] → Forall (λ x, in_class todecimal c x = true) ds →
  k s = Some r →
  (∀ x s', s = x :: s' → in_class todecimal c x = false) →
  greedy todecimal c (ds ++ s) k = Some r.
Proof.
  intros Hne Hds Hk Hs. induction Hds as [|x ds Hx Hds IH]; [done|].
  simpl. rewrite Hx. destruct ds as [|y ds].
  - simpl. destruct s as [|z s]; simpl; [done|].
    by rewrite (Hs z s eq_refl).
  - by rewrite IH.
Qed.

Lemma re_search_sound (r : regex) (s : pystr) (m : rematch) :
  re_search todecimal r s = Some m →
  ∃ pre s', s = pre ++ s' ∧ match_here todecimal r s' [] (found s') = Some m.
Proof.
  induction s as [|x s IH]; simpl.
  - destruct (match_here todecimal r [] [] _) as [m'|] eqn:Hm; [|done].
    intros [= ->]. by exists [], [].
  - destruct (match_here todecimal r (x :: s) [] _) as [m'|] eqn:Hm.
    + intros [= ->]. by exists [], (x :: s).
    + intros (pre & s' & -> & Hs')%IH. by exists (x :: pre), s'.
Qed.

Lemma re_search_complete (r : regex) (pre s' : pystr) :
  is_Some (match_here todecimal r s' [] (found s')) → is_Some (re_search todecimal r (pre ++ s')).
Proof.
  intros Hm. induction pre as [|x pre IH]; simpl.
  - destruct s' as [|y s']; simpl; by destruct (match_here todecimal r _ [] _).
  - by destruct (match_here todecimal r (x :: pre ++ s') [] _).
Qed.

Lemma digit_class (x : N) : in_class todecimal Digit x = true ↔ is_Some (todecimal x).
Proof. unfold in_class. apply bool_decide_eq_true. Qed.

Lemma resolution_here_sound (s : pystr) (m : rematch) :
  match_here todecimal resolution_re s [] (found s) = Some m →
  ∃ w h post,
    s = group m ++ post ∧ group m = w ++ [120%N] ++ h ∧
    w ≠ [] ∧ h ≠ [] ∧ decimals todecimal w ∧ decimals todecimal h.
Proof.
  unfold resolution_re. change (py "x") with [120%N]. cbn [match_here].
  intros (w & s1 & -> & Hw & Hwd & Hk)%greedy_sound.
  destruct (strip_prefix [120%N] s1) as [s2|] eqn:Hx; [|done].
  apply strip_prefix_Some in Hx as ->.
  apply greedy_sound in Hk as (h & post & -> & Hh & Hhd & [= <-]).
  exists w, h, post. cbn [group app].
  replace (w ++ 120%N :: h ++ post) with ((w ++ 120%N :: h) ++ post)
    by (by rewrite <- !(assoc_L (++))).
  rewrite take_app_minus. repeat split; try done.
  - eapply Forall_impl; [exact Hwd|]. intros x. apply digit_class.
  - eapply Forall_impl; [exact Hhd|]. intros x. apply digit_class.
Qed.

Lemma resolution_here_complete (d1 d2 : N) (post : pystr) :
  is_Some (todecimal d1) → is_Some (todecimal d2) →
  is_Some (match_here todecimal resolution_re (d1 :: 120%N :: d2 :: post) []
             (found (d1 :: 120%N :: d2 :: post))).
Proof.
  intros Hd1%digit_class Hd2%digit_class. unfold resolution_re.
  change (py "x") with [120%N]. cbn [match_here].
  apply greedy_complete; [done|].
  cbn [strip_prefix]. rewrite bool_decide_true by done.
  apply greedy_complete; [done|]. by eexists.
Qed.

Lemma resolution_search (s : pystr) :
  is_Some (re_search todecimal resolution_re s) ↔ has_resolution todecimal s.
Proof.
  split.
  - intros [m (pre & s' & -> & Hm)%re_search_sound].
    apply resolution_here_sound in Hm as (w & h & post & -> & -> & Hw & Hh & Hwd & Hhd).
    destruct (exists_last_digit w Hw) as (w' & d1 & ->).
    destruct h as [|d2 h]; [done|].
    exists (pre ++ w'), d1, d2, (h ++ post).
    split; [by rewrite <- !(assoc_L (++))|].
    apply Forall_app in Hwd as [_ Hd1]. apply Forall_cons in Hhd as [Hd2 _].
    by apply Forall_cons in Hd1 as [Hd1 _].
  - intros (pre & d1 & d2 & post & -> & Hd1 & Hd2).
    by apply re_search_complete, resolution_here_complete.
Qed.

Lemma greedy_cons {R} (c : charclass) (x : N) (s : pystr) (k : pystr → option R) :
  greedy todecimal c (x :: s) k =
    if in_class todecimal c x
    then match greedy todecimal c s k with Some r => Some r | None => k s end
    else None.
Proof. reflexivity. Qed.

Lemma greedy_run {R} (c : charclass) (ds s : pystr) (k : pystr → option R) :
  ds ≠ [] → Forall (λ x, in_class todecimal c x = true) ds →
  is_Some (k s) → is_Some (greedy todecimal c (ds ++ s) k).
Proof.
  intros Hne Hds Hk. induction Hds as [|x ds Hx Hds IH]; [done|].
  destruct ds as [|y ds]; [by apply greedy_complete|].
  change ((x :: y :: ds) ++ s) with (x :: ((y :: ds) ++ s)).
  rewrite greedy_cons, Hx.
  destruct (IH ltac:(done)) as [r Hr]. by rewrite Hr.
Qed.

(** When what follows accepts anything, the greedy match stops only where
    the class ends. *)
Lemma greedy_longest {R} (c : charclass) (s : pystr) (k : pystr → option R) (r : R) :
  (∀ s', is_Some (k s')) →
  greedy todecimal c s k = Some r →
  ∃ ds s', s = ds ++ s' ∧ ds ≠ [] ∧
           Forall (λ x, in_class todecimal c x = true) ds ∧ k s' = Some r ∧
           ∀ x s'', s' = x :: s'' → in_class todecimal c x = false.
Proof.
  intros Hk. induction s as [|x s IH]; cbn [greedy]; [done|].
  destruct (in_class todecimal c x) eqn:Hx; [|done].
  destruct (greedy todecimal c s k) as [r'|] eqn:Hg.
  - intros [= ->]. destruct (IH eq_refl) as (ds & s' & -> & _ & Hds & Hr & Hend).
    exists (x :: ds), s'. repeat split; try done. by constructor.
  - intros Hr. exists [x], s. repeat split; try done; [by repeat constructor|].
    intros y s'' ->. destruct (in_class todecimal c y) eqn:Hy; [|done].
    destruct (greedy_complete c y s'' k Hy (Hk s'')) as [r' Hr']. congruence.
Qed.

Lemma re_search_nil (r : regex) :
  re_search todecimal r [] =
    match match_here todecimal r [] [] (found []) with
    | Some m => Some m
    | None => None
    end.
Proof. reflexivity. Qed.

Lemma re_search_cons (r : regex) (x : N) (s : pystr) :
  re_search todecimal r (x :: s) =
    match match_here todecimal r (x :: s) [] (found (x :: s)) with
    | Some m => Some m
    | None => re_search todecimal r s
    end.
Proof. reflexivity. Qed.

Lemma re_search_leftmost (r : regex) (s : pystr) (m : rematch) :
  re_search todecimal r s = Some m →
  ∃ pre s',
    s = pre ++ s' ∧ match_here todecimal r s' [] (found s') = Some m ∧
    ∀ pre1 pre2, pre = pre1 ++ pre2 → pre2 ≠ [] →
                 match_here todecimal r (pre2 ++ s') [] (found (pre2 ++ s')) = None.
Proof.
  induction s as [|x s IH].
  - rewrite re_search_nil.
    destruct (match_here todecimal r [] [] (found [])) as [m'|] eqn:Hm; [|done].
    intros [= ->]. exists [], []. repeat split; try done.
    intros pre1 pre2 Hp Hne. by destruct pre1, pre2.
  - rewrite re_search_cons.
    destruct (match_here todecimal r (x :: s) [] (found (x :: s))) as [m'|] eqn:Hm.
    + intros [= ->]. exists [], (x :: s). repeat split; try done.
      intros pre1 pre2 Hp Hne. by destruct pre1, pre2.
    + intros (pre & s' & -> & Hs' & Hleft)%IH. exists (x :: pre), s'.
      repeat split; try done.
      intros [|y pre1] pre2 Hp Hne; cbn [app] in Hp.
      * by subst pre2.
      * injection Hp as -> ->. by apply (Hleft pre1 pre2).
Qed.

Lemma resolution_here_run (ds : pystr) (d2 : N) (post : pystr) :
  ds ≠ [] → decimals todecimal ds → is_Some (todecimal d2) →
  is_Some (match_here todecimal resolution_re (ds ++ 120%N :: d2 :: post) []
             (found (ds ++ 120%N :: d2 :: post))).
Proof.
  intros Hne Hds Hd2%digit_class. unfold resolution_re.
  change (py "x") with [120%N]. cbn [match_here].
  apply greedy_run; [done| |].
  - eapply Forall_impl; [exact Hds|]. intros x. apply digit_class.
  - cbn [strip_prefix]. rewrite bool_decide_true by done.
    apply greedy_complete; [done|]. by eexists.
Qed.

(** What [re.search] finds of the resolution pattern: the leftmost digits,
    [x], digits, each run of digits as long as the string has it. *)
Lemma resolution_found (s : pystr) (m : rematch) :
  re_search todecimal resolution_re s = Some m →
  ∃ pre w h post,
    s = pre ++ group m ++ post ∧ group m = w ++ [120%N] ++ h ∧
    w ≠ [] ∧ h ≠ [] ∧ decimals todecimal w ∧ decimals todecimal h ∧
    (∀ pre' x, pre = pre' ++ [x] → todecimal x = None) ∧
    (∀ x post', post = x :: post' → todecimal x = None).
Proof.
  intros (pre & s' & -> & Hm & Hleft)%re_search_leftmost.
  pose proof Hm as Hm'.
  apply resolution_here_sound in Hm' as (w & h & post & Hs' & Hg & Hw & Hh & Hwd & Hhd).
  exists pre, w, h, post. repeat split; try done; [by rewrite <- Hs'| |].
  - intros pre' x -> . destruct (todecimal x) as [v|] eqn:Hx; [|done]. exfalso.
    destruct h as [|d2 h]; [done|]. apply Forall_cons in Hhd as [Hd2 Hhd].
    assert (is_Some (match_here todecimal resolution_re ([x] ++ s') []
                       (found ([x] ++ s')))) as [m' Hm'].
    { rewrite Hs', Hg.
      replace ([x] ++ (w ++ [120%N] ++ d2 :: h) ++ post)
        with ((x :: w) ++ 120%N :: d2 :: h ++ post)
        by (cbn [app]; by rewrite <- !(assoc_L (++))).
      apply resolution_here_run; [done| |done].
      constructor; [by rewrite Hx|done]. }
    by rewrite (Hleft pre' [x] eq_refl) in Hm'.
  - intros x post' ->. revert Hm. unfold resolution_re.
    change (py "x") with [120%N]. cbn [match_here].
    intros (w1 & s1 & Hs1 & _ & _ & Hk)%greedy_sound.
    destruct (strip_prefix [120%N] s1) as [s2|] eqn:Hx; [|done].
    apply greedy_longest in Hk as (h1 & rest & -> & _ & _ & [= <-] & Hend);
      [|by eexists].
    apply strip_prefix_Some in Hx as ->.
    cbn [group] in Hs', Hg.
    assert (s' = (w1 ++ [120%N] ++ h1) ++ rest) as Hs1'
      by (rewrite Hs1; by rewrite <- !(assoc_L (++))).
    assert (take (length s' - length rest) s' = w1 ++ [120%N] ++ h1) as Ht
      by (rewrite Hs1'; apply take_app_minus).
    rewrite Ht in Hs'.
    assert (rest = x :: post') as Hrest
      by (apply (inj (app (w1 ++ [120%N] ++ h1))); congruence).
    destruct (todecimal x) as [v|] eqn:Hdx; [|done].
    specialize (Hend x post' Hrest). apply not_true_iff_false in Hend.
    exfalso. apply Hend, digit_class. by rewrite Hdx.
Qed.

End Regex.

(** X6. [extract_resolution] changes nothing. When the stem of the path
    has a digit followed by [x] and a digit, it returns a piece of the
    stem made of digits, [x], digits, and both runs of digits are whole:
    no digit stands right before or right after the piece. When the stem
    has none, it raises [AttributeError]. *)
Theorem extract_resolution_token (todecimal : N → option N) (p : path) (s : state) :
  let res := extract_resolution todecimal p s in
  res.2 = s ∧
  (has_resolution todecimal (stem p) →
   ∃ dims pre w h post,
     res.1 = Return dims ∧
     stem p = pre ++ dims ++ post ∧ dims = w ++ [120%N] ++ h ∧
     w ≠ [] ∧ h ≠ [] ∧ decimals todecimal w ∧ decimals todecimal h ∧
     (∀ pre' x, pre = pre' ++ [x] → todecimal x = None) ∧
     (∀ x post', post = x :: post' → todecimal x = None)) ∧
  (¬ has_resolution todecimal (stem p) →
   res.1 = Raise (AttributeError (py "'NoneType' object has no attribute 'group'"))).
Proof.
  cbv zeta. unfold extract_resolution.
  pose proof (resolution_search todecimal (stem p)) as Hiff.
  destruct (re_search todecimal resolution_re (stem p)) as [m|] eqn:Hm.
  - split; [done|]. split.
    + intros _.
      destruct (resolution_found todecimal (stem p) m Hm)
        as (pre & w & h & post & H1 & H2 & H3 & H4 & H5 & H6 & H7 & H8).
      by exists (group m), pre, w, h, post.
    + intros Hno. destruct Hno. apply Hiff. by eexists.
  - split; [done|]. split; [|done].
    intros [m Hsome]%Hiff. done.
Qed.

(** The file name of the specification, and a stem whose first digits are
    not followed by [x]. *)
Example extract_resolution_examples :
  (extract_resolution ascii_decimal
     {| parent := py "/data"; name := py "1000_cam_320x240.rgb" |}
     (Examples.start [] [])).1 = Return (py "320x240") ∧
  (extract_resolution ascii_decimal
     {| parent := py "/data"; name := py "12a34x56x7.rgb" |}
     (Examples.start [] [])).1 = Return (py "34x56") ∧
  (extract_resolution ascii_decimal
     {| parent := py "/data"; name := py "1000_cam.rgb" |}
     (Examples.start [] [])).1 =
    Raise (AttributeError (py "'NoneType' object has no attribute 'group'")).
Proof. repeat split; vm_compute; reflexivity. Qed.

(** ** Progress lines *)

Lemma decode_ascii (s : bytes) :
  Forall (λ b, (b < 128)%N) s → decode s = Some s.
Proof.
  induction 1 as [|b s Hb _ IH]; [done|].
  cbn [decode]. apply N.ltb_lt in Hb. rewrite Hb, IH. done.
Qed.

Lemma bytes_lstrip_head (x : N) (s : bytes) :
  bytes_isspace x = false → bytes_lstrip (x :: s) = x :: s.
Proof. intros Hx. cbn [bytes_lstrip]. by rewrite Hx. Qed.

(** A line between two characters that are not white space loses its
    final newline to [strip] and nothing else. *)
Lemma bytes_strip_newline (x y : N) (s : bytes) :
  bytes_isspace x = false → bytes_isspace y = false →
  bytes_strip (x :: s ++ [y] ++ [10%N]) = x :: s ++ [y].
Proof.
  intros Hx Hy. unfold bytes_strip. rewrite (bytes_lstrip_head x _ Hx).
  replace (x :: s ++ [y] ++ [10%N]) with ((x :: s ++ [y]) ++ [10%N])
    by (cbn [app]; by rewrite <- !(assoc_L (++))).
  rewrite reverse_snoc. cbn [bytes_lstrip].
  change (bytes_isspace 10) with true. cbv iota.
  replace (x :: s ++ [y]) with ((x :: s) ++ [y]) by done.
  rewrite reverse_snoc, (bytes_lstrip_head y _ Hy).
  by rewrite <- reverse_snoc, reverse_involutive.
Qed.

Section Digits.

Variable todecimal : N → option N.
Variable max_str_digits : nat.

(** The digits 0 to 9 have their value in every version of the table. *)
Hypothesis ascii_digits : ∀ x, (48 ≤ x ≤ 57)%N → todecimal x = Some (x - 48)%N.

Lemma decimal_digits_spec (fuel : nat) (n : N) :
  (N.to_nat n < fuel)%nat →
  Examples.decimal_digits fuel n ≠ [] ∧
  Forall Examples.ascii_digit (Examples.decimal_digits fuel n) ∧
  fold_left (λ acc x, 10 * acc + Z.of_N (default 0%N (todecimal x)))
            (Examples.decimal_digits fuel n) 0 = Z.of_N n.
Proof.
  revert n. induction fuel as [|fuel IH]; intros n Hfuel; [lia|].
  cbn [Examples.decimal_digits]. destruct (N.ltb_spec n 10) as [Hn|Hn].
  - split; [done|].
    split; [apply Forall_cons_2; [unfold Examples.ascii_digit; lia|apply Forall_nil_2]|].
    cbn [fold_left]. rewrite ascii_digits by lia. simpl default. lia.
  - assert (n / 10 < n)%N as Hlt by (apply N.div_lt; lia).
    destruct (IH (n / 10)%N ltac:(lia)) as (Hne & Hall & Hval).
    assert (n mod 10 < 10)%N as Hm by (apply N.mod_lt; lia).
    pose proof (N.div_mod n 10 ltac:(lia)) as Hdm.
    set (q := (n / 10)%N) in *. set (m := (n mod 10)%N) in *. clearbody q m.
    split; [by destruct (Examples.decimal_digits fuel q)|]. split.
    + apply Forall_app. split; [done|].
      apply Forall_cons_2; [unfold Examples.ascii_digit; lia|apply Forall_nil_2].
    + rewrite fold_left_app, Hval. cbn [fold_left].
      rewrite ascii_digits by lia. simpl default. lia.
Qed.

Lemma decimal_spec (n : N) :
  Examples.decimal n ≠ [] ∧ Forall Examples.ascii_digit (Examples.decimal n) ∧
  fold_left (λ acc x, 10 * acc + Z.of_N (default 0%N (todecimal x)))
            (Examples.decimal n) 0 = Z.of_N n.
Proof. apply decimal_digits_spec. lia. Qed.

Lemma ascii_digit_class (x : N) : Examples.ascii_digit x → in_class todecimal Digit x = true.
Proof. intros Hx. apply (digit_class todecimal). rewrite ascii_digits by done. by eexists. Qed.

(** The frame pattern on a line that is [frame #] and digits. *)
Lemma frame_re_search (ds : pystr) :
  ds ≠ [] → Forall Examples.ascii_digit ds →
  re_search todecimal frame_re (py "frame #" ++ ds) =
    Some {| group := py "frame #" ++ ds; groups := [ds] |}.
Proof.
  intros Hne Hds.
  change (py "frame #") with [102; 114; 97; 109; 101; 32; 35]%N.
  cbn [app]. rewrite (re_search_cons todecimal). unfold frame_re.
  change (py "frame") with [102; 114; 97; 109; 101]%N.
  change (py "#") with [35%N].
  cbn [match_here strip_prefix]. rewrite !bool_decide_true by done.
  change (in_class todecimal Space 32) with true. cbv iota.
  rewrite <- (app_nil_r ds) at 1.
  erewrite (greedy_all todecimal); [reflexivity|done| | |].
  - eapply Forall_impl; [exact Hds|]. apply ascii_digit_class.
  - unfold found. cbn [length app Nat.sub]. rewrite Nat.sub_0_r.
    cbn [firstn]. by rewrite firstn_all.
  - done.
Qed.

Lemma frame_number_line (ds : pystr) :
  ds ≠ [] → Forall Examples.ascii_digit ds →
  ¬ (0 < max_str_digits < length ds)%nat →
  frame_number todecimal max_str_digits (py "frame #" ++ ds ++ [10%N]) =
    Return (Some (fold_left (λ acc x, 10 * acc + Z.of_N (default 0%N (todecimal x))) ds 0)).
Proof.
  intros Hne Hds Hmax. unfold frame_number.
  destruct (exists_last_digit ds Hne) as (ds' & d & ->).
  assert (Examples.ascii_digit d) as Hd
    by (apply Forall_app in Hds as [_ Hd]; by apply Forall_cons in Hd as [Hd _]).
  change (py "frame #") with [102; 114; 97; 109; 101; 32; 35]%N.
  replace ([102; 114; 97; 109; 101; 32; 35]%N ++ (ds' ++ [d]) ++ [10%N])
    with (102%N :: ([114; 97; 109; 101; 32; 35]%N ++ ds') ++ [d] ++ [10%N])
    by (cbn [app]; by rewrite <- !(assoc_L (++))).
  rewrite bytes_strip_newline; [|done|].
  2: { unfold Examples.ascii_digit in Hd. unfold bytes_isspace.
       apply orb_false_intro; [apply andb_false_intro2|];
         [apply N.leb_gt|apply N.eqb_neq]; lia. }
  replace (102%N :: ([114; 97; 109; 101; 32; 35]%N ++ ds') ++ [d])
    with (py "frame #" ++ ds' ++ [d])
    by (change (py "frame #") with [102; 114; 97; 109; 101; 32; 35]%N;
        reflexivity).
  rewrite decode_ascii.
  2: { apply Forall_app. split; [by repeat constructor|].
       eapply Forall_impl; [exact Hds|]. unfold Examples.ascii_digit. intros x ?. lia. }
  rewrite (frame_re_search (ds' ++ [d]) Hne Hds). cbn [groups head default].
  unfold int. by rewrite bool_decide_false.
Qed.

Lemma frame_number_decimal (n : N) :
  ¬ (0 < max_str_digits < length (Examples.decimal n))%nat →
  frame_number todecimal max_str_digits (Examples.frame_line n) =
    Return (Some (Z.of_N n)).
Proof.
  intros Hmax. destruct (decimal_spec n) as (Hne & Hall & Hval).
  unfold Examples.frame_line.
  rewrite (frame_number_line (Examples.decimal n) Hne Hall Hmax).
  by rewrite Hval.
Qed.

(** X7. The line [frame #<n>] that a program prints for the number [n]
    in decimal, newline included, is read as frame number [n], as long as
    the interpreter converts digit strings of that length; the turn that
    reads it ends the loop when [n] is above the target and lets the loop
    go round again when it is not. *)
Theorem frame_line_number (n : N) (target : Z) :
  ¬ (0 < max_str_digits < length (Examples.decimal n))%nat →
  frame_number todecimal max_str_digits (Examples.frame_line n) =
    Return (Some (Z.of_N n)) ∧
  (target < Z.of_N n →
   reaches todecimal max_str_digits target (Line (Examples.frame_line n))) ∧
  (Z.of_N n ≤ target →
   passes todecimal max_str_digits target (Line (Examples.frame_line n))).
Proof.
  intros Hmax. pose proof (frame_number_decimal n Hmax) as Hnum.
  assert (Examples.frame_line n ≠ []) as Hne by by unfold Examples.frame_line.
  split; [exact Hnum|]. split.
  - intros Habove. by exists (Examples.frame_line n), (Z.of_N n).
  - intros Hbelow. right. exists (Examples.frame_line n).
    split; [done|]. split; [done|]. right. by exists (Z.of_N n).
Qed.

Variable thermal_raw : directory → directory.
Variable me : self.

Lemma frame_lines_pass (first count : nat) :
  (∀ i, (i < first + count)%nat →
        ¬ (0 < max_str_digits < length (Examples.decimal (N.of_nat i)))%nat) →
  (Z.of_nat (first + count) ≤ frames me + 1) →
  Forall (passes todecimal max_str_digits (frames me)) (Examples.frame_lines first count).
Proof.
  intros Hmax Hle. unfold Examples.frame_lines.
  apply Forall_fmap, Forall_forall. intros i [Hlo Hhi]%elem_of_seq.
  right. exists (Examples.frame_line (N.of_nat i)).
  split; [done|]. split; [by unfold Examples.frame_line|].
  right. exists (Z.of_N (N.of_nat i)).
  split; [apply frame_number_decimal, Hmax; lia|lia].
Qed.

(** X8. With a target of [n] frames and a capture process that prints
    [frame #1], [frame #2] and so on: [get_camera_frames] leaves its loop
    on the line of frame [n + 1], with what comes after unread, closes the
    pipe and waits for the process; it returns, with the directory as the
    process left it, if the process exits, and does not return if the
    process never does. On the first [n] lines alone it is still
    polling. *)
Theorem frame_stream_stops_after_target (child_exits : bool) (n : nat) (s : state)
    (rest : list poll) :
  frames me = Z.of_nat n →
  (∀ i, (i ≤ S n)%nat →
        ¬ (0 < max_str_digits < length (Examples.decimal (N.of_nat i)))%nat) →
  (pending s = Examples.frame_lines 1 (S n) ++ rest →
   let res := get_camera_frames todecimal max_str_digits None child_exits thermal_raw
                me s in
   res.1 = (if child_exits then Return tt else Waiting) ∧
   pending res.2 = rest ∧
   files res.2 = (if child_exits then thermal_raw (files s) else files s) ∧
   ∃ before,
     trace res.2 =
       trace s ++ before ++
       [Info (py "Max frame count reached, closing camera capture");
        CloseStdout; WaitExit]) ∧
  (pending s = Examples.frame_lines 1 n →
   (get_camera_frames todecimal max_str_digits None child_exits thermal_raw me s).1 =
     Waiting).
Proof.
  intros Hframes Hmax.
  assert (Forall (passes todecimal max_str_digits (frames me)) (Examples.frame_lines 1 n))
    as Hpass by (apply frame_lines_pass; [intros i Hi; apply Hmax|]; lia).
  split.
  - intros Hp. cbv zeta.
    assert (pending s = Examples.frame_lines 1 n ++
              Line (Examples.frame_line (N.of_nat (S n))) :: rest) as Hp'.
    { rewrite Hp. unfold Examples.frame_lines.
      rewrite seq_S, fmap_app. cbn [fmap list_fmap].
      by rewrite <- (assoc_L (++)). }
    assert (reaches todecimal max_str_digits (frames me)
              (Line (Examples.frame_line (N.of_nat (S n))))) as Hev.
    { exists (Examples.frame_line (N.of_nat (S n))), (Z.of_N (N.of_nat (S n))).
      split; [done|]. split; [by unfold Examples.frame_line|].
      split; [apply frame_number_decimal, Hmax; lia|lia]. }
    rewrite (get_camera_frames_reaches todecimal max_str_digits None child_exits
               thermal_raw me s _ rest _ eq_refl Hp' Hpass Hev).
    destruct (turn_trace_reaches todecimal max_str_digits me _ Hev) as (text & _ & ->).
    cbn [fst snd pending files trace]. split; [done|]. split; [done|]. split; [done|].
    exists ([InfoCalling (thermal_raw_cmd me); Popen (thermal_raw_cmd me)] ++
            concat (turn_trace todecimal max_str_digits (frames me)
                      <$> Examples.frame_lines 1 n) ++
            [Select 5; Readline; Info text]).
    rewrite <- !(assoc_L (++)). reflexivity.
  - intros Hp. rewrite get_camera_frames_cases. cbv zeta.
    set (s0 := after s (pending s) _).
    assert (pending s0 = Examples.frame_lines 1 n ++ []) as Hp0
      by (cbn [pending s0 after]; by rewrite Hp, app_nil_r).
    rewrite (poll_loop_skip todecimal max_str_digits me _ _ s0 Hp0 Hpass).
    by rewrite poll_loop_nil.
Qed.

(** C1. The loop of [get_camera_frames] returns, with the events [rest]
    of the capture process not yet taken, exactly when the events before
    [rest] end with a line whose first frame number is above [frames],
    every turn before it being one that lets the loop go round again. A
    line [frame #<n>] is such a line exactly when [n] is above [frames].
    On such a line the call logs the line and that the count is reached,
    closes the pipe and waits for the process to exit, and does nothing
    else to it; it returns when the process has exited. *)
Theorem get_camera_frames_target (popen_error : option exn) (child_exits : bool)
    (s : state) (rest : list poll) :
  let call := get_camera_frames todecimal max_str_digits popen_error child_exits
                thermal_raw me in
  let decided :=
    ∃ pre ev, pending s = pre ++ ev :: rest ∧
              Forall (passes todecimal max_str_digits (frames me)) pre ∧
              reaches todecimal max_str_digits (frames me) ev in
  ((∃ s', poll_loop todecimal max_str_digits me s = (Return tt, s') ∧ pending s' = rest)
   ↔ decided) ∧
  (∀ n : N,
     ¬ (0 < max_str_digits < length (Examples.decimal n))%nat →
     (reaches todecimal max_str_digits (frames me) (Line (Examples.frame_line n)) ↔
      frames me < Z.of_N n) ∧
     (passes todecimal max_str_digits (frames me) (Line (Examples.frame_line n)) ↔
      Z.of_N n ≤ frames me)) ∧
  ((∃ s', call s = (Return tt, s') ∧ pending s' = rest) ↔
   popen_error = None ∧ child_exits = true ∧ decided) ∧
  (∀ pre output,
     popen_error = None →
     pending s = pre ++ Line output :: rest →
     Forall (passes todecimal max_str_digits (frames me)) pre →
     reaches todecimal max_str_digits (frames me) (Line output) →
     ∃ text,
       decode (bytes_strip output) = Some text ∧
       call s =
         (if child_exits then Return tt else Waiting,
          {| pending := rest;
             files := if child_exits then thermal_raw (files s) else files s;
             trace := trace s ++
                      [InfoCalling (thermal_raw_cmd me); Popen (thermal_raw_cmd me)] ++
                      concat (turn_trace todecimal max_str_digits (frames me) <$> pre) ++
                      [Select 5; Readline; Info text;
                       Info (py "Max frame count reached, closing camera capture");
                       CloseStdout; WaitExit] |})).
Proof.
  intros call decided. subst call decided.
  split; [|split; [|split]].
  - apply (poll_loop_returns todecimal max_str_digits me (pending s) s rest eq_refl).
  - intros n Hmax. pose proof (frame_number_decimal n Hmax) as Hnum.
    assert (Examples.frame_line n ≠ []) as Hne by by unfold Examples.frame_line.
    split; split.
    + intros (output & n' & [= <-] & _ & Hn & Hlt). congruence.
    + intros Hlt. by exists (Examples.frame_line n), (Z.of_N n).
    + intros [[Hq|Hnil]|(output & [= <-] & _ & [Hn|(n' & Hn & Hle)])].
      * discriminate Hq.
      * injection Hnil as Hnil. by destruct Hne.
      * congruence.
      * congruence.
    + intros Hle. right. exists (Examples.frame_line n).
      split; [done|]. split; [done|]. right. by exists (Z.of_N n).
  - split.
    + intros (s' & Hcall & Hrest).
      rewrite get_camera_frames_cases in Hcall. cbv zeta in Hcall.
      destruct popen_error as [e|]; [done|].
      set (s0 := after s (pending s) _) in Hcall.
      pose proof (poll_loop_returns todecimal max_str_digits me (pending s) s0
                    (pending s') eq_refl) as Hloop.
      destruct (poll_loop todecimal max_str_digits me s0) as [[[]|e|] s1] eqn:Hpoll;
        [| |done].
      * unfold popen_exit in Hcall. destruct child_exits; [|done].
        injection Hcall as <-. split; [done|]. split; [done|].
        rewrite <- Hrest. apply Hloop. by exists s1.
      * unfold popen_exit in Hcall.
        destruct e; destruct child_exits; done.
    + intros (-> & -> & pre & ev & Hp & Hpre & Hev).
      rewrite (get_camera_frames_reaches todecimal max_str_digits None true
                 thermal_raw me s pre rest ev eq_refl Hp Hpre Hev).
      by eexists.
  - intros pre output Hopen Hp Hpre Hev.
    destruct (turn_trace_reaches todecimal max_str_digits me output Hev)
      as (text & Htext & Htr).
    exists text. split; [done|].
    rewrite (get_camera_frames_reaches todecimal max_str_digits popen_error child_exits
               thermal_raw me s pre rest (Line output) Hopen Hp Hpre Hev), Htr.
    done.
Qed.

End Digits.

(** ** The discipline of the polling loop *)

Section Discipline.

Variable todecimal : N → option N.
Variable max_str_digits : nat.
Variable me : self.

Lemma polled_turn (ev : poll) (t : list action) :
  polled_reads t →
  polled_reads (turn_trace todecimal max_str_digits (frames me) ev ++ t).
Proof.
  intros Ht. destruct ev as [|output|e|e]; cbn [turn_trace].
  - done.
  - destruct (negb (truthy output)); [done|].
    destruct (decode (bytes_strip output)) as [text|]; [|done].
    by destruct (verdict _ _ _ _) as [[|]|?|].
  - destruct t as [|[] t]; done.
  - done.
Qed.

Lemma selects_turn (ev : poll) :
  List.filter is_select (turn_trace todecimal max_str_digits (frames me) ev) = [Select 5].
Proof.
  destruct ev as [|output|e|e]; cbn [turn_trace]; try done.
  destruct (negb (truthy output)); [done|].
  destruct (decode (bytes_strip output)) as [text|]; [|done].
  by destruct (verdict _ _ _ _) as [[|]|?|].
Qed.

(** X9. However the polling loop ends, it has taken the events of the
    capture process in order, with one [select] for each; every read of
    the pipe came right after a [select] with the timeout of 5 s; and the
    working directory is as it was. *)
Theorem poll_loop_discipline (s : state) :
  let res := poll_loop todecimal max_str_digits me s in
  files res.2 = files s ∧
  ∃ taken added,
    pending s = taken ++ pending res.2 ∧
    trace res.2 = trace s ++ added ∧
    polled_reads added ∧
    List.filter is_select added = (λ _, Select 5) <$> taken.
Proof.
  cbv zeta. destruct (poll_loop_state todecimal max_str_digits me (pending s) s eq_refl)
    as [k Hk].
  rewrite Hk. split; [done|].
  exists (take k (pending s)), (concat (turn_trace todecimal max_str_digits (frames me)
                                         <$> take k (pending s))).
  split; [unfold after; cbn [pending]; by rewrite take_drop|]. split; [done|].
  generalize (take k (pending s)). intros l.
  induction l as [|ev l [IH1 IH2]]; [done|].
  cbn [fmap list_fmap concat]. split; [by apply polled_turn|].
  by rewrite List.filter_app, selects_turn, IH2.
Qed.

End Discipline.

(** ** The batch of conversions *)

Section Batch.

Variable todecimal : N → option N.
Variable ffmpeg : pystr → pystr → pystr → directory → run_outcome * directory.
Variable me : self.

Hypothesis only_output : writes_only_output ffmpeg.
Hypothesis output_written : success_writes_output ffmpeg.
Hypothesis succeeds : always_succeeds ffmpeg.

(** One conversion that goes well. *)
Lemma convert_ok (n : pystr) (m : rematch) (s : state) :
  suffix (in_workdir me n) = py ".rgb" →
  n ∈ (files s).*1 →
  re_search todecimal resolution_re (stem (in_workdir me n)) = Some m →
  ∃ s1,
    convert_rgb_to_jpg todecimal ffmpeg (in_workdir me n) s =
      (Return (jpg_sibling (in_workdir me n)), s1) ∧
    pending s1 = pending s ∧
    trace s1 = trace s ++ conversion_trace todecimal me n ∧
    (n ∉ (files s1).*1) ∧
    name (jpg_sibling (in_workdir me n)) ∈ (files s1).*1 ∧
    ∀ n' c, n' ≠ n → n' ≠ name (jpg_sibling (in_workdir me n)) →
            (n', c) ∈ files s1 ↔ (n', c) ∈ files s.
Proof.
  intros Hsfx Hin Hm.
  destruct (jpg_sibling_parts _ Hsfx) as (_ & _ & _ & Hne).
  rewrite (convert_cases todecimal ffmpeg _ s Hsfx), Hm. cbv zeta.
  change (name (in_workdir me n)) with n in *.
  destruct (succeeds (group m) n (name (jpg_sibling (in_workdir me n))) (files s))
    as [out Hout].
  pose proof (only_output (group m) n (name (jpg_sibling (in_workdir me n))) (files s))
    as Hkeep.
  pose proof (output_written (group m) n (name (jpg_sibling (in_workdir me n))) (files s))
    as Hwritten.
  destruct (ffmpeg (group m) n (name (jpg_sibling (in_workdir me n))) (files s))
    as [outcome d]. cbn [fst snd] in *. subst outcome.
  specialize (Hwritten out d eq_refl).
  rewrite bool_decide_true by done.
  assert (n ∈ d.*1) as Hstill.
  { apply elem_of_names in Hin as [c Hc]. apply elem_of_names. exists c.
    apply Hkeep; [|done]. intros Heq. by apply Hne. }
  rewrite (proj2 (exists_in_names d n) Hstill).
  eexists. split; [reflexivity|]. cbn [pending files trace].
  split; [done|]. split.
  { unfold conversion_trace. cbv zeta. by rewrite bool_decide_true, Hm. }
  split; [by intros [? _]%names_remove|].
  split; [apply names_remove; by split|].
  intros n' c Hn' Hsib. rewrite elem_of_remove. rewrite (Hkeep n' c Hsib).
  split; [by intros [_ ?]|by split].
Qed.

Lemma sibling_not_raw (n n' : pystr) :
  suffix (in_workdir me n) = py ".rgb" →
  suffix (in_workdir me n') = py ".rgb" →
  n' ≠ name (jpg_sibling (in_workdir me n)).
Proof.
  intros Hn Hn' ->.
  destruct (jpg_sibling_parts _ Hn) as (_ & _ & Hsf & _).
  change (in_workdir me (name (jpg_sibling (in_workdir me n))))
    with (jpg_sibling (in_workdir me n)) in Hn'.
  rewrite Hsf in Hn'. discriminate Hn'.
Qed.

(** The loop over entries that are all there and well named. *)
Lemma for_tspath_converts (entries : list pystr) (s : state) (tspath : option path) :
  NoDup entries →
  (∀ n, n ∈ entries → suffix (in_workdir me n) = py ".rgb" →
        n ∈ (files s).*1 ∧
        is_Some (re_search todecimal resolution_re (stem (in_workdir me n)))) →
  ∃ last s',
    for_tspath todecimal ffmpeg (in_workdir me <$> entries) tspath s = (Return last, s') ∧
    (is_Some tspath ∨ entries ≠ [] → is_Some last) ∧
    pending s' = pending s ∧
    trace s' = trace s ++ concat (conversion_trace todecimal me <$> entries) ∧
    (∀ n, n ∈ entries → suffix (in_workdir me n) = py ".rgb" →
          (n ∉ (files s').*1) ∧
          name (jpg_sibling (in_workdir me n)) ∈ (files s').*1) ∧
    (∀ n' c,
       (∀ n, n ∈ entries → suffix (in_workdir me n) = py ".rgb" →
             n' ≠ n ∧ n' ≠ name (jpg_sibling (in_workdir me n))) →
       (n', c) ∈ files s' ↔ (n', c) ∈ files s).
Proof.
  revert s tspath. induction entries as [|n rest IH]; intros s tspath Hnd Hraw.
  - exists tspath, s. cbn [fmap list_fmap concat for_tspath].
    rewrite app_nil_r. split; [done|]. split; [by intros [?|?]|].
    split; [done|]. split; [done|].
    split; [by intros x Hx%elem_of_nil|done].
  - apply NoDup_cons in Hnd as [Hn Hnd].
    cbn [fmap list_fmap concat for_tspath]. unfold mbind, M_bind.
    case_bool_decide as Hsfx.
    + destruct (Hraw n) as [Hin [m Hm]]; [left|done|].
      destruct (convert_ok n m s Hsfx Hin Hm)
        as (s1 & -> & Hp1 & Ht1 & Hgone1 & Hsib1 & Hframe1).
      destruct (IH s1 (Some (jpg_sibling (in_workdir me n))) Hnd)
        as (last & s' & -> & Hlast & Hp & Ht & Hdone & Hframe).
      { intros n' Hn' Hsfx'. destruct (Hraw n') as [Hin' Hres]; [by right|done|].
        split; [|done]. apply elem_of_names in Hin' as [c Hc].
        apply elem_of_names. exists c. apply Hframe1; [by intros ->| |done].
        by apply sibling_not_raw. }
      exists last, s'. split; [done|]. split; [intros _; apply Hlast; by left|].
      split; [congruence|].
      split; [by rewrite Ht, Ht1, <- (assoc_L (++))|]. split.
      * intros n' [->|Hn']%elem_of_cons Hsfx'; [|by apply Hdone].
        assert (∀ x c, (∀ r, r ∈ rest → suffix (in_workdir me r) = py ".rgb" →
                             x ≠ r ∧ x ≠ name (jpg_sibling (in_workdir me r))) →
                       (x, c) ∈ files s' ↔ (x, c) ∈ files s1) as Hframe' by done.
        split.
        -- intros [c Hc]%elem_of_names. apply Hgone1, elem_of_names. exists c.
           apply Hframe'; [|done]. intros r Hr Hsr.
           split; [by intros ->|by apply sibling_not_raw].
        -- destruct (decide (Exists (λ r, suffix (in_workdir me r) = py ".rgb" ∧
                        name (jpg_sibling (in_workdir me n)) =
                        name (jpg_sibling (in_workdir me r))) rest)) as [Hex|Hnex].
           ++ apply Exists_exists in Hex as (r & Hr & Hsr & ->).
              by apply Hdone.
           ++ apply elem_of_names in Hsib1 as [c Hc]. apply elem_of_names. exists c.
              apply Hframe'; [|done]. intros r Hr Hsr. split.
              ** intros Heq. by apply (sibling_not_raw n r Hsfx' Hsr).
              ** intros Heq. apply Hnex, Exists_exists. by exists r.
      * intros n' c Hn'. rewrite Hframe.
        -- destruct (Hn' n) as [H1 H2]; [left|done|]. by apply Hframe1.
        -- intros r Hr Hsr. apply Hn'; [by right|done].
    + cbn [mret M_ret].
      destruct (IH s (Some (in_workdir me n)) Hnd)
        as (last & s' & -> & Hlast & Hp & Ht & Hdone & Hframe).
      { intros n' Hn' Hsfx'. apply Hraw; [by right|done]. }
      exists last, s'. split; [done|]. split; [intros _; apply Hlast; by left|].
      split; [done|]. split.
      { rewrite Ht. unfold conversion_trace at 2. cbv zeta.
        by rewrite bool_decide_false. }
      split.
      * intros n' [->|Hn']%elem_of_cons Hsfx'; [done|by apply Hdone].
      * intros n' c Hn'. apply Hframe. intros r Hr Hsr. apply Hn'; [by right|done].
Qed.

(** The whole loop of [capture] on such a directory. *)
Lemma convert_all_outcome (s : state) :
  NoDup (files s).*1 →
  (∀ n, n ∈ (files s).*1 → suffix (in_workdir me n) = py ".rgb" →
        has_resolution todecimal (stem (in_workdir me n))) →
  ∃ s',
    convert_all todecimal ffmpeg me s =
      (match last (files s).*1 with
       | Some n => Return (converted (in_workdir me n))
       | None => Raise (UnboundLocalError (py "tspath"))
       end, s') ∧
    pending s' = pending s ∧
    (∀ n, n ∈ (files s').*1 → suffix (in_workdir me n) ≠ py ".rgb") ∧
    (∀ n, n ∈ (files s).*1 → suffix (in_workdir me n) = py ".rgb" →
          name (jpg_sibling (in_workdir me n)) ∈ (files s').*1) ∧
    (∀ n c, (n, c) ∈ files s → suffix (in_workdir me n) ≠ py ".rgb" →
            (∀ r, r ∈ (files s).*1 → suffix (in_workdir me r) = py ".rgb" →
                  n ≠ name (jpg_sibling (in_workdir me r))) →
            (n, c) ∈ files s') ∧
    trace s' =
      trace s ++ Scandir (workdir me) ::
      concat (conversion_trace todecimal me <$> (files s).*1).
Proof.
  intros Hnd Hres.
  unfold convert_all, glob, listdir, mbind, M_bind, log, mret, M_ret.
  cbn [fst snd files].
  set (s0 := {| pending := pending s; files := files s;
                trace := trace s ++ [Scandir (workdir me)] |}).
  assert (∀ n, n ∈ (files s).*1 → suffix (in_workdir me n) = py ".rgb" →
               n ∈ (files s0).*1 ∧
               is_Some (re_search todecimal resolution_re (stem (in_workdir me n))))
    as Hraw.
  { intros n Hn Hsfx. split; [done|]. by apply resolution_search, Hres. }
  destruct (for_tspath_converts (files s).*1 s0 None Hnd Hraw)
    as (last & s' & Hfor & _ & Hp & Ht & Hdone & Hframe).
  destruct (for_tspath_last todecimal ffmpeg me (files s).*1 s0 None
              only_output succeeds Hnd Hraw) as [s'' Hfor'].
  rewrite Hfor in Hfor'. injection Hfor' as -> <-. rewrite Hfor.
  exists s'. split; [by destruct (last (files s).*1)|]. split; [done|].
  split; [|split; [|split]].
  - intros n Hn Hsfx. destruct (decide (n ∈ (files s).*1)) as [Hin|Hout].
    + by destruct (Hdone n Hin Hsfx).
    + apply elem_of_names in Hn as [c Hc]. apply Hout, elem_of_names. exists c.
      apply (Hframe n c); [|done]. intros r Hr Hsr.
      split; [by intros ->|by apply sibling_not_raw].
  - intros n Hn Hsfx. by destruct (Hdone n Hn Hsfx).
  - intros n c Hc Hsfx Hsib. apply Hframe; [|done]. intros r Hr Hsr.
    split; [by intros ->|by apply Hsib].
  - rewrite Ht. cbn [trace s0]. by rewrite <- (assoc_L (++)).
Qed.

(** X10. With a converter that exits with 0, has then written its
    output, and touches no other file, on a directory whose raw entries
    all have a resolution in their names: after the loop of [capture] no
    entry of the directory is a raw file, the [.jpg] sibling of every raw
    file that was there is there, every other file that is not such a
    sibling is there with its content, and the converter has run once for
    each raw file, in the order of the listing, each run followed by the
    removal of its input. With at least one entry a path is returned. *)
Theorem convert_all_converts_every_raw (s : state) :
  NoDup (files s).*1 →
  (∀ n, n ∈ (files s).*1 → suffix (in_workdir me n) = py ".rgb" →
        has_resolution todecimal (stem (in_workdir me n))) →
  let res := convert_all todecimal ffmpeg me s in
  (files s ≠ [] → ∃ p, res.1 = Return p) ∧
  (∀ n, n ∈ (files res.2).*1 → suffix (in_workdir me n) ≠ py ".rgb") ∧
  (∀ n, n ∈ (files s).*1 → suffix (in_workdir me n) = py ".rgb" →
        name (jpg_sibling (in_workdir me n)) ∈ (files res.2).*1) ∧
  (∀ n c, (n, c) ∈ files s → suffix (in_workdir me n) ≠ py ".rgb" →
          (∀ r, r ∈ (files s).*1 → suffix (in_workdir me r) = py ".rgb" →
                n ≠ name (jpg_sibling (in_workdir me r))) →
          (n, c) ∈ files res.2) ∧
  trace res.2 =
    trace s ++ Scandir (workdir me) ::
    concat (conversion_trace todecimal me <$> (files s).*1).
Proof.
  intros Hnd Hres. cbv zeta.
  destruct (convert_all_outcome s Hnd Hres) as (s' & -> & _ & H2 & H3 & H4 & H5).
  cbn [fst snd]. split; [|done].
  intros Hne. destruct (files s) as [|[n c] d]; [done|].
  destruct (last ((n, c) :: d).*1) as [n'|] eqn:Hl; [by eexists|].
  by apply last_None in Hl.
Qed.

End Batch.

(** ** A conversion that fails *)

Section Abort.

Variable todecimal : N → option N.
Variable ffmpeg : pystr → pystr → pystr → directory → run_outcome * directory.
Variable me : self.

(** Entries that are not raw only move the loop variable. *)
Lemma for_tspath_skip (pre rest : list pystr) (tspath : option path) (s : state) :
  Forall (λ n, suffix (in_workdir me n) ≠ py ".rgb") pre →
  for_tspath todecimal ffmpeg (in_workdir me <$> (pre ++ rest)) tspath s =
    for_tspath todecimal ffmpeg (in_workdir me <$> rest)
      (match last pre with Some n => Some (in_workdir me n) | None => tspath end) s.
Proof.
  revert tspath. induction pre as [|n pre IH]; intros tspath Hpre; [done|].
  apply Forall_cons in Hpre as [Hn Hpre].
  cbn [app fmap list_fmap for_tspath]. unfold mbind, M_bind.
  rewrite bool_decide_false by done. cbn [mret M_ret].
  change (list_fmap _ _ (in_workdir me) (pre ++ rest))
    with (in_workdir me <$> (pre ++ rest)).
  rewrite (IH _ Hpre), last_cons. by destruct (last pre).
Qed.

(** X11. When the converter exits with a status other than 0 on the first
    raw file of the listing, [capture]'s loop ends there with
    [CalledProcessError]: the directory is what this one run of the
    converter left, and nothing is started or removed for the entries that
    come after. *)
Theorem convert_all_stops_at_failure (s : state) (pre post : list pystr) (n : pystr)
    (m : rematch) (rc : Z) (out : pystr) (d : directory) :
  (files s).*1 = pre ++ n :: post →
  Forall (λ n', suffix (in_workdir me n') ≠ py ".rgb") pre →
  suffix (in_workdir me n) = py ".rgb" →
  re_search todecimal resolution_re (stem (in_workdir me n)) = Some m →
  ffmpeg (group m) n (name (jpg_sibling (in_workdir me n))) (files s) =
    (Completed rc out, d) →
  rc ≠ 0 →
  convert_all todecimal ffmpeg me s =
    (Raise (CalledProcessError rc),
     {| pending := pending s; files := d;
        trace := trace s ++
                 [Scandir (workdir me);
                  Run (ffmpeg_cmd (group m) (in_workdir me n)
                         (jpg_sibling (in_workdir me n)))] |}).
Proof.
  intros Hnames Hpre Hsfx Hm Hran Hrc.
  unfold convert_all, glob, listdir, mbind, M_bind, log, mret, M_ret.
  cbn [fst snd files]. rewrite Hnames, for_tspath_skip by done.
  cbn [fmap list_fmap for_tspath]. unfold mbind, M_bind.
  rewrite bool_decide_true by done.
  rewrite (convert_cases todecimal ffmpeg _ _ Hsfx), Hm. cbv zeta.
  cbn [files name in_workdir]. change {| parent := workdir me; name := n |}
    with (in_workdir me n). rewrite Hran. cbn [fst snd].
  rewrite bool_decide_false by done. cbn [pending trace].
  by rewrite <- (assoc_L (++)).
Qed.

(** X12. When the first raw file of the listing has no resolution in its
    name, [capture]'s loop ends there with [AttributeError]: the converter
    is not started and the directory is as it was. *)
Theorem convert_all_malformed_name (s : state) (pre post : list pystr) (n : pystr) :
  (files s).*1 = pre ++ n :: post →
  Forall (λ n', suffix (in_workdir me n') ≠ py ".rgb") pre →
  suffix (in_workdir me n) = py ".rgb" →
  ¬ has_resolution todecimal (stem (in_workdir me n)) →
  convert_all todecimal ffmpeg me s =
    (Raise (AttributeError (py "'NoneType' object has no attribute 'group'")),
     after s (pending s) [Scandir (workdir me)]).
Proof.
  intros Hnames Hpre Hsfx Hno.
  assert (re_search todecimal resolution_re (stem (in_workdir me n)) = None) as Hm.
  { destruct (re_search _ _ _) as [m|] eqn:Hm; [|done].
    destruct Hno. apply resolution_search. by eexists. }
  unfold convert_all, glob, listdir, mbind, M_bind, log, mret, M_ret.
  cbn [fst snd files]. rewrite Hnames, for_tspath_skip by done.
  cbn [fmap list_fmap for_tspath]. unfold mbind, M_bind.
  rewrite bool_decide_true by done.
  by rewrite (convert_cases todecimal ffmpeg _ _ Hsfx), Hm.
Qed.

End Abort.

(** ** The whole of [capture] *)

Section Whole.

Variable todecimal : N → option N.
Variable max_str_digits : nat.
Variable child_exits : bool.
Variable thermal_raw : directory → directory.
Variable ffmpeg : pystr → pystr → pystr → directory → run_outcome * directory.
Variable me : self.

(** X13. When the working directory cannot be made, the capture process
    is not started; when the process cannot be started, nothing is read
    from it. Either way [capture] logs the exception, raises a new
    [Exception] made from it, and has neither listed the directory nor
    run the converter. *)
Theorem capture_never_started (popen_error : option exn) (s : state) (e : exn) :
  is_Exception e = true →
  capture todecimal max_str_digits (Some e) popen_error child_exits thermal_raw ffmpeg
      me s =
    (Raise (ExceptionFrom e),
     after s (pending s) [Mkdir (workdir me); LogException e]) ∧
  capture todecimal max_str_digits None (Some e) child_exits thermal_raw ffmpeg me s =
    (Raise (ExceptionFrom e),
     after s (pending s)
       [Mkdir (workdir me); InfoCalling (thermal_raw_cmd me);
        Popen (thermal_raw_cmd me); LogException e]).
Proof.
  intros He. split.
  - unfold capture, mbind at 1, M_bind at 1. rewrite capture_frames_cases.
    unfold try_body, mkdir, mbind, M_bind, log, raise, after. cbn [fst snd].
    rewrite He. cbn [pending files trace]. by rewrite <- (assoc_L (++)).
  - unfold capture, mbind at 1, M_bind at 1. rewrite capture_frames_cases.
    unfold try_body, mkdir, log, mret, M_ret, mbind, M_bind. cbv beta iota.
    rewrite get_camera_frames_cases. cbv beta iota zeta. rewrite He.
    unfold after. cbn [pending files trace]. by rewrite <- !(assoc_L (++)).
Qed.

Hypothesis only_output : writes_only_output ffmpeg.
Hypothesis output_written : success_writes_output ffmpeg.
Hypothesis succeeds : always_succeeds ffmpeg.

(** X14. A capture that goes well from end to end: the directory can be
    made, the process starts, its output reaches a frame number above the
    target after turns that let the loop go on, the process exits once its
    output is no longer read, the directory it leaves has distinct entries
    whose raw files all have a resolution in their names, and the
    converter does its work. Then [capture] returns the last entry of that
    directory, converted if it is raw; what the process printed after the
    deciding line is unread; no raw file is left and each one has its
    [.jpg] sibling. *)
Theorem capture_delivers (s : state) (pre rest : list poll) (ev : poll) (n : pystr) :
  child_exits = true →
  pending s = pre ++ ev :: rest →
  Forall (passes todecimal max_str_digits (frames me)) pre →
  reaches todecimal max_str_digits (frames me) ev →
  NoDup (thermal_raw (files s)).*1 →
  (∀ r, r ∈ (thermal_raw (files s)).*1 → suffix (in_workdir me r) = py ".rgb" →
        has_resolution todecimal (stem (in_workdir me r))) →
  last (thermal_raw (files s)).*1 = Some n →
  let res := capture todecimal max_str_digits None None child_exits thermal_raw ffmpeg
               me s in
  res.1 = Return (converted (in_workdir me n)) ∧
  pending res.2 = rest ∧
  (∀ r, r ∈ (files res.2).*1 → suffix (in_workdir me r) ≠ py ".rgb") ∧
  (∀ r, r ∈ (thermal_raw (files s)).*1 → suffix (in_workdir me r) = py ".rgb" →
        name (jpg_sibling (in_workdir me r)) ∈ (files res.2).*1).
Proof.
  intros Hexits Hp Hpre Hev Hnd Hres Hlast. cbv zeta.
  assert (∃ s1, capture_frames todecimal max_str_digits None None child_exits
                  thermal_raw me s = (Return tt, s1) ∧
                pending s1 = rest ∧ files s1 = thermal_raw (files s))
    as (s1 & Hframes & Hp1 & Hf1).
  { rewrite capture_frames_cases.
    unfold try_body, mkdir, log, mret, M_ret, mbind, M_bind. cbv beta iota.
    set (s0 := {| pending := pending s; files := files s;
                  trace := trace s ++ [Mkdir (workdir me)] |}).
    rewrite (get_camera_frames_reaches todecimal max_str_digits None child_exits
               thermal_raw me s0 pre rest ev eq_refl Hp Hpre Hev), Hexits.
    eexists. split; [reflexivity|]. by split. }
  destruct (convert_all_outcome todecimal ffmpeg me only_output output_written succeeds s1)
    as (s' & Hconv & Hp' & H2 & H3 & H4 & H5).
  { by rewrite Hf1. }
  { intros r. rewrite Hf1. apply Hres. }
  rewrite Hf1, Hlast in Hconv.
  unfold capture, mbind, M_bind. rewrite Hframes, Hconv. cbn [fst snd].
  split; [done|]. split; [congruence|]. split; [done|].
  intros r Hr Hsfx. apply H3; [by rewrite Hf1|done].
Qed.

End Whole.

(** ** File names *)

Lemma split_underscore_none (s : pystr) :
  95%N ∉ s → split_underscore s = [s].
Proof.
  induction s as [|c s IH]; [done|].
  intros [Hc Hs]%not_elem_of_cons. cbn [split_underscore].
  rewrite bool_decide_false by done. by rewrite (IH Hs).
Qed.

Lemma split_underscore_first (a b : pystr) :
  95%N ∉ a → split_underscore (a ++ 95%N :: b) = [a; b].
Proof.
  induction a as [|c a IH]; [done|].
  intros [Hc Ha]%not_elem_of_cons. cbn [app split_underscore].
  rewrite bool_decide_false by done. by rewrite (IH Ha).
Qed.

Lemma first_underscore (s : pystr) :
  95%N ∉ s ∨ ∃ a b, s = a ++ 95%N :: b ∧ 95%N ∉ a.
Proof.
  induction s as [|c s [IH|(a & b & -> & Ha)]].
  - left. apply not_elem_of_nil.
  - destruct (decide (c = 95%N)) as [->|Hc].
    + right. exists [], s. split; [done|apply not_elem_of_nil].
    + left. by apply not_elem_of_cons.
  - right. destruct (decide (c = 95%N)) as [->|Hc].
    + exists [], (a ++ 95%N :: b). split; [done|apply not_elem_of_nil].
    + exists (c :: a), b. split; [done|by apply not_elem_of_cons].
Qed.

(** X15. [extract_timestamp_and_filename] cuts the name of the path at its
    first underscore: it returns a number and a path exactly when the name
    is a text without underscore that [int] turns into that number, an
    underscore, and the name of the returned path, which is in the same
    directory and whose name is not empty, not a dot and has no slash. On
    a name without underscore it raises [ValueError], whatever [int] does. *)
Theorem extract_timestamp_and_filename_splits (pyint : pystr → result Z) (p : path) :
  (∀ t p',
     extract_timestamp_and_filename pyint p = Return (t, p') ↔
     ∃ ts, name p = ts ++ [95%N] ++ name p' ∧ (95%N ∉ ts) ∧ pyint ts = Return t ∧
           parent p' = parent p ∧
           name p' ≠ [] ∧ (47%N ∉ name p') ∧ name p' ≠ py ".") ∧
  (95%N ∉ name p →
   extract_timestamp_and_filename pyint p =
     Raise (ValueError (py "not enough values to unpack (expected 2, got 1)"))).
Proof.
  split.
  - intros t p'. unfold extract_timestamp_and_filename, with_name. split.
    + destruct (first_underscore (name p)) as [Hno|(a & b & Hname & Ha)].
      { by rewrite (split_underscore_none _ Hno). }
      rewrite Hname, (split_underscore_first a b Ha).
      destruct (pyint a) as [t'| |] eqn:Hint; [|done..].
      replace (negb (truthy (a ++ 95%N :: b))) with false by by destruct a.
      case_bool_decide as Hbad; [done|].
      intros [= <- <-]. exists a. cbn [name parent].
      split; [done|]. split; [done|]. split; [done|]. split; [done|].
      repeat split; intros ?; apply Hbad; auto.
    + intros (ts & Hname & Hts & Hint & Hparent & Hne & Hslash & Hdot).
      rewrite Hname. cbn [app]. rewrite (split_underscore_first ts _ Hts), Hint.
      replace (negb (truthy (ts ++ 95%N :: name p'))) with false by by destruct ts.
      rewrite bool_decide_false by (intros [?|[?|?]]; done).
      destruct p' as [parent' name']. cbn [parent name] in *. by subst.
  - intros Hno. unfold extract_timestamp_and_filename.
    by rewrite (split_underscore_none _ Hno).
Qed.

(** The file name of the specification, and a name cut at its first
    underscore only. *)
Example extract_timestamp_and_filename_examples :
  extract_timestamp_and_filename (int ascii_decimal 0)
    {| parent := py "/data"; name := py "1000_cam_320x240.rgb" |} =
    Return (1000, {| parent := py "/data"; name := py "cam_320x240.rgb" |}) ∧
  extract_timestamp_and_filename (int ascii_decimal 0)
    {| parent := py "/data"; name := py "notes.txt" |} =
    Raise (ValueError (py "not enough values to unpack (expected 2, got 1)")).
Proof. split; vm_compute; reflexivity. Qed.

(** ** Concrete runs *)

(** How pathlib prints what is in the current directory, in a root, and
    in any other directory. *)
Example path_str_examples :
  path_str {| parent := py "."; name := py "a.rgb" |} = py "a.rgb" ∧
  path_str {| parent := py "/"; name := py "a.rgb" |} = py "/a.rgb" ∧
  path_str {| parent := py "//"; name := py "a.rgb" |} = py "//a.rgb" ∧
  path_str {| parent := py "/data"; name := py "a.rgb" |} = py "/data/a.rgb" ∧
  path_str {| parent := py "data/in"; name := py "a.rgb" |} = py "data/in/a.rgb".
Proof. repeat split; vm_compute; reflexivity. Qed.

(** An interrupt while [select] waits: the pipe is closed, the process
    is given a quarter of a second and not waited for any longer. *)
Example interrupt_does_not_wait :
  get_camera_frames ascii_decimal 0 None false id Examples.imager
    (Examples.start [Quiet; SelectFails KeyboardInterrupt] []) =
    (Raise KeyboardInterrupt,
     {| pending := []; files := [];
        trace := [ InfoCalling (thermal_raw_cmd Examples.imager);
                   Popen (thermal_raw_cmd Examples.imager);
                   Select 5; Warning (py "Timeout waiting for camera interface output");
                   Select 5; CloseStdout; WaitBriefly ] |}).
Proof. vm_compute. reflexivity. Qed.

Lemma ascii_decimal_digits (x : N) :
  (48 ≤ x ≤ 57)%N → ascii_decimal x = Some (x - 48)%N.
Proof.
  intros [Hlo Hhi]. unfold ascii_decimal.
  apply N.leb_le in Hlo, Hhi. by rewrite Hlo, Hhi.
Qed.

Lemma two_raw_have_resolution (n : pystr) :
  n ∈ Examples.two_raw.*1 →
  has_resolution ascii_decimal (stem (in_workdir Examples.imager n)).
Proof.
  intros Hn. apply resolution_search. cbn in Hn.
  rewrite !elem_of_cons, elem_of_nil in Hn.
  destruct Hn as [->|[->|[]]]; vm_compute; by eexists.
Qed.

Lemma frame_line_number_witness :
  (∀ x, (48 ≤ x ≤ 57)%N → ascii_decimal x = Some (x - 48)%N) ∧
  ¬ (0 < 0 < length (Examples.decimal 12))%nat ∧
  frame_number ascii_decimal 0 (Examples.frame_line 12) = Return (Some 12) ∧
  (10 < Z.of_N 12 → reaches ascii_decimal 0 10 (Line (Examples.frame_line 12))) ∧
  (Z.of_N 12 ≤ 10 → passes ascii_decimal 0 10 (Line (Examples.frame_line 12))).
Proof.
  assert (¬ (0 < 0 < length (Examples.decimal 12))%nat) as Hmax by lia.
  split; [exact ascii_decimal_digits|]. split; [exact Hmax|].
  exact (frame_line_number ascii_decimal 0 ascii_decimal_digits 12 10 Hmax).
Defined.

Lemma frame_stream_stops_after_target_witness :
  let s := Examples.start (Examples.frame_lines 1 3 ++ [Quiet]) [] in
  (∀ x, (48 ≤ x ≤ 57)%N → ascii_decimal x = Some (x - 48)%N) ∧
  frames Examples.imager = Z.of_nat 2 ∧
  (∀ i, (i ≤ 3)%nat → ¬ (0 < 0 < length (Examples.decimal (N.of_nat i)))%nat) ∧
  pending s = Examples.frame_lines 1 3 ++ [Quiet] ∧
  (let res := get_camera_frames ascii_decimal 0 None true (λ d, d ++ Examples.two_raw)
                Examples.imager s in
   res.1 = Return tt ∧ pending res.2 = [Quiet] ∧ files res.2 = Examples.two_raw) ∧
  (let res := get_camera_frames ascii_decimal 0 None false (λ d, d ++ Examples.two_raw)
                Examples.imager s in
   res.1 = Waiting ∧ pending res.2 = [Quiet] ∧ files res.2 = []).
Proof.
  intros s.
  assert (∀ i, (i ≤ 3)%nat → ¬ (0 < 0 < length (Examples.decimal (N.of_nat i)))%nat)
    as Hmax by (intros i _; lia).
  pose proof (proj1 (frame_stream_stops_after_target ascii_decimal 0 ascii_decimal_digits
                       (λ d, d ++ Examples.two_raw) Examples.imager true 2 s [Quiet]
                       eq_refl Hmax) eq_refl) as (H1 & H2 & H3 & _).
  pose proof (proj1 (frame_stream_stops_after_target ascii_decimal 0 ascii_decimal_digits
                       (λ d, d ++ Examples.two_raw) Examples.imager false 2 s [Quiet]
                       eq_refl Hmax) eq_refl) as (H1' & H2' & H3' & _).
  split; [exact ascii_decimal_digits|]. split; [reflexivity|].
  split; [exact Hmax|]. split; [reflexivity|].
  split; [split; [exact H1|split; [exact H2|exact H3]]|].
  split; [exact H1'|split; [exact H2'|exact H3']].
Defined.

Lemma get_camera_frames_target_witness :
  let s := Examples.start Examples.mixed_frames [] in
  let pre := take 4 Examples.mixed_frames in
  let output := py "frame" ++ [194; 160]%N ++ py "#3" ++ [10%N] in
  let text := py "frame" ++ [160%N] ++ py "#3" in
  let cmd := [ py "/thermal-raw"; py "--url"; py "10.0.0.2"; py "--user"; py "admin";
               py "--password"; py "secret"; py "--dir"; py "/data" ] in
  (∀ x, (48 ≤ x ≤ 57)%N → ascii_decimal x = Some (x - 48)%N) ∧
  pending s = pre ++ Line output :: [Line (Examples.frame_line 4)] ∧
  Forall (passes ascii_decimal 0 (frames Examples.imager)) pre ∧
  reaches ascii_decimal 0 (frames Examples.imager) (Line output) ∧
  decode (bytes_strip output) = Some text ∧
  get_camera_frames ascii_decimal 0 None true (λ d, d ++ Examples.two_raw)
      Examples.imager s =
    (Return tt,
     {| pending := [Line (Examples.frame_line 4)];
        files := Examples.two_raw;
        trace :=
          [ InfoCalling cmd; Popen cmd;
            Select 5; Warning (py "Timeout waiting for camera interface output");
            Select 5; Readline; Info (py "frame #1");
            Select 5; Readline; Info (py "saving");
            Select 5; Readline; Info (py "frame #2");
            Select 5; Readline; Info text;
            Info (py "Max frame count reached, closing camera capture");
            CloseStdout; WaitExit ] |}).
Proof.
  intros s pre output text cmd.
  assert (Forall (passes ascii_decimal 0 (frames Examples.imager)) pre) as Hpre.
  { apply Forall_cons_2; [by left; left|].
    apply Forall_cons_2.
    { right. eexists. split; [reflexivity|]. split; [done|]. right. exists 1.
      split; [vm_compute; reflexivity|]. cbn [frames Examples.imager]. lia. }
    apply Forall_cons_2.
    { right. eexists. split; [reflexivity|]. split; [done|]. left.
      vm_compute. reflexivity. }
    apply Forall_cons_2; [|apply Forall_nil_2].
    right. eexists. split; [reflexivity|]. split; [done|]. right. exists 2.
    split; [vm_compute; reflexivity|]. cbn [frames Examples.imager]. lia. }
  assert (reaches ascii_decimal 0 (frames Examples.imager) (Line output)) as Hev.
  { exists output, 3. split; [reflexivity|]. split; [done|].
    split; [vm_compute; reflexivity|]. cbn [frames Examples.imager]. lia. }
  pose proof (proj2 (proj2 (proj2
                (get_camera_frames_target ascii_decimal 0 ascii_decimal_digits
                   (λ d, d ++ Examples.two_raw) Examples.imager None true s
                   [Line (Examples.frame_line 4)])))
                pre output eq_refl eq_refl Hpre Hev) as (text' & Htext & Hcall).
  assert (decode (bytes_strip output) = Some text) as Htext' by (vm_compute; reflexivity).
  assert (text' = text) as -> by congruence.
  split; [exact ascii_decimal_digits|]. split; [reflexivity|].
  split; [exact Hpre|]. split; [exact Hev|]. split; [exact Htext|].
  etransitivity; [exact Hcall|]. vm_compute. reflexivity.
Defined.

Lemma convert_all_converts_every_raw_witness :
  let s := Examples.start [] Examples.two_raw in
  let res := convert_all ascii_decimal Examples.ffmpeg_ok Examples.imager s in
  let convert := λ stem_ : pystr,
    [ py "ffmpeg"; py "-f"; py "rawvideo"; py "-pixel_format"; py "bgra";
      py "-video_size"; py "320x240"; py "-i";
      py "/data/" ++ stem_ ++ py ".rgb"; py "/data/" ++ stem_ ++ py ".jpg" ] in
  writes_only_output Examples.ffmpeg_ok ∧
  success_writes_output Examples.ffmpeg_ok ∧
  always_succeeds Examples.ffmpeg_ok ∧
  NoDup (files s).*1 ∧
  (∀ n, n ∈ (files s).*1 → suffix (in_workdir Examples.imager n) = py ".rgb" →
        has_resolution ascii_decimal (stem (in_workdir Examples.imager n))) ∧
  (∀ n, n ∈ (files s).*1 → suffix (in_workdir Examples.imager n) = py ".rgb" →
        name (jpg_sibling (in_workdir Examples.imager n)) ∈ (files res.2).*1) ∧
  trace res.2 =
    [ Scandir (py "/data");
      Run (convert (py "1000_cam_320x240"));
      DebugRemoving (py "/data/1000_cam_320x240.rgb");
      Unlink (py "/data/1000_cam_320x240.rgb");
      Run (convert (py "1001_cam_320x240"));
      DebugRemoving (py "/data/1001_cam_320x240.rgb");
      Unlink (py "/data/1001_cam_320x240.rgb") ].
Proof.
  intros s res convert.
  assert (NoDup (files s).*1) as Hnd by compute_done.
  assert (∀ n, n ∈ (files s).*1 → suffix (in_workdir Examples.imager n) = py ".rgb" →
               has_resolution ascii_decimal (stem (in_workdir Examples.imager n)))
    as Hres by (intros n Hn _; by apply two_raw_have_resolution).
  pose proof (convert_all_converts_every_raw ascii_decimal Examples.ffmpeg_ok
                Examples.imager ffmpeg_ok_writes_only_output
                ffmpeg_ok_success_writes_output ffmpeg_ok_always_succeeds s Hnd Hres)
    as (_ & _ & Hjpg & _ & Htrace).
  split; [exact ffmpeg_ok_writes_only_output|].
  split; [exact ffmpeg_ok_success_writes_output|].
  split; [exact ffmpeg_ok_always_succeeds|].
  split; [exact Hnd|]. split; [exact Hres|]. split; [exact Hjpg|].
  etransitivity; [exact Htrace|]. vm_compute. reflexivity.
Defined.

Lemma convert_all_stops_at_failure_witness :
  let s := Examples.start [] ((py "notes.txt", py "hello") :: Examples.two_raw) in
  let m := {| group := py "320x240"; groups := [] |} in
  let p := in_workdir Examples.imager_here Examples.raw1 in
  (files s).*1 = [py "notes.txt"] ++ Examples.raw1 :: [Examples.raw2] ∧
  Forall (λ n', suffix (in_workdir Examples.imager_here n') ≠ py ".rgb") [py "notes.txt"] ∧
  suffix p = py ".rgb" ∧
  re_search ascii_decimal resolution_re (stem p) = Some m ∧
  Examples.ffmpeg_broken (group m) Examples.raw1 (name (jpg_sibling p)) (files s) =
    (Completed 1 [], files s) ∧
  1 ≠ 0 ∧
  convert_all ascii_decimal Examples.ffmpeg_broken Examples.imager_here s =
    (Raise (CalledProcessError 1),
     {| pending := []; files := files s;
        trace := [Scandir (py ".");
                  Run [ py "ffmpeg"; py "-f"; py "rawvideo"; py "-pixel_format";
                        py "bgra"; py "-video_size"; py "320x240"; py "-i";
                        py "1000_cam_320x240.rgb"; py "1000_cam_320x240.jpg" ]] |}).
Proof.
  intros s m p.
  assert (Forall (λ n', suffix (in_workdir Examples.imager_here n') ≠ py ".rgb")
            [py "notes.txt"]) as Hpre
    by (apply Forall_cons_2; [by vm_compute|apply Forall_nil_2]).
  assert (suffix p = py ".rgb") as Hsfx by (vm_compute; reflexivity).
  assert (re_search ascii_decimal resolution_re (stem p) = Some m) as Hm
    by (vm_compute; reflexivity).
  assert ((1 : Z) ≠ 0) as Hrc by lia.
  split; [reflexivity|]. split; [exact Hpre|]. split; [exact Hsfx|].
  split; [exact Hm|]. split; [reflexivity|]. split; [exact Hrc|].
  etransitivity;
    [exact (convert_all_stops_at_failure ascii_decimal Examples.ffmpeg_broken
              Examples.imager_here s [py "notes.txt"] [Examples.raw2] Examples.raw1
              m 1 [] (files s) eq_refl Hpre Hsfx Hm eq_refl Hrc)|].
  vm_compute. reflexivity.
Defined.

Lemma convert_all_malformed_name_witness :
  let s := Examples.start [] [(py "1000_cam.rgb", py "BGRA"); (Examples.raw2, py "BGRA")] in
  let p := in_workdir Examples.imager (py "1000_cam.rgb") in
  (files s).*1 = [] ++ py "1000_cam.rgb" :: [Examples.raw2] ∧
  suffix p = py ".rgb" ∧
  ¬ has_resolution ascii_decimal (stem p) ∧
  convert_all ascii_decimal Examples.ffmpeg_ok Examples.imager s =
    (Raise (AttributeError (py "'NoneType' object has no attribute 'group'")),
     after s (pending s) [Scandir (py "/data")]).
Proof.
  intros s p.
  assert (suffix p = py ".rgb") as Hsfx by (vm_compute; reflexivity).
  assert (¬ has_resolution ascii_decimal (stem p)) as Hno.
  { intros [m Hm]%resolution_search. vm_compute in Hm. discriminate Hm. }
  split; [reflexivity|]. split; [exact Hsfx|]. split; [exact Hno|].
  exact (convert_all_malformed_name ascii_decimal Examples.ffmpeg_ok Examples.imager
           s [] [Examples.raw2] (py "1000_cam.rgb") eq_refl (Forall_nil_2 _) Hsfx Hno).
Defined.

Lemma capture_never_started_witness :
  let s := Examples.start Examples.three_frames Examples.two_raw in
  is_Exception (OSError (py "Read-only file system")) = true ∧
  capture ascii_decimal 0 (Some (OSError (py "Read-only file system"))) None true id
      Examples.ffmpeg_ok Examples.imager s =
    (Raise (ExceptionFrom (OSError (py "Read-only file system"))),
     after s (pending s)
       [Mkdir (py "/data"); LogException (OSError (py "Read-only file system"))]).
Proof.
  intros s. split; [reflexivity|].
  exact (proj1 (capture_never_started ascii_decimal 0 true id Examples.ffmpeg_ok
                  Examples.imager None s (OSError (py "Read-only file system")) eq_refl)).
Defined.

Lemma capture_delivers_witness :
  let s := Examples.start Examples.three_frames [] in
  let thermal_raw := λ d : directory, d ++ Examples.two_raw in
  let res := capture ascii_decimal 0 None None true thermal_raw Examples.ffmpeg_ok
               Examples.imager s in
  writes_only_output Examples.ffmpeg_ok ∧
  success_writes_output Examples.ffmpeg_ok ∧
  always_succeeds Examples.ffmpeg_ok ∧
  pending s = take 3 Examples.three_frames ++ Line (Examples.frame_line 3) ::
              [Line (Examples.frame_line 4)] ∧
  Forall (passes ascii_decimal 0 (frames Examples.imager)) (take 3 Examples.three_frames) ∧
  reaches ascii_decimal 0 (frames Examples.imager) (Line (Examples.frame_line 3)) ∧
  NoDup (thermal_raw (files s)).*1 ∧
  last (thermal_raw (files s)).*1 = Some Examples.raw2 ∧
  res.1 = Return {| parent := py "/data"; name := py "1001_cam_320x240.jpg" |} ∧
  pending res.2 = [Line (Examples.frame_line 4)] ∧
  (∀ r, r ∈ (files res.2).*1 → suffix (in_workdir Examples.imager r) ≠ py ".rgb").
Proof.
  intros s thermal_raw res.
  assert (Forall (passes ascii_decimal 0 (frames Examples.imager))
            (take 3 Examples.three_frames)) as Hpre.
  { apply Forall_cons_2; [by left; left|].
    apply Forall_cons_2.
    { right. eexists. split; [reflexivity|]. split; [done|]. right. exists 1.
      split; [vm_compute; reflexivity|]. cbn [frames Examples.imager]. lia. }
    apply Forall_cons_2; [|apply Forall_nil_2].
    right. eexists. split; [reflexivity|]. split; [done|]. right. exists 2.
    split; [vm_compute; reflexivity|]. cbn [frames Examples.imager]. lia. }
  assert (reaches ascii_decimal 0 (frames Examples.imager) (Line (Examples.frame_line 3)))
    as Hev.
  { eexists _, 3. split; [reflexivity|]. split; [done|].
    split; [vm_compute; reflexivity|]. cbn [frames Examples.imager]. lia. }
  assert (NoDup (thermal_raw (files s)).*1) as Hnd by compute_done.
  assert (∀ r, r ∈ (thermal_raw (files s)).*1 →
               suffix (in_workdir Examples.imager r) = py ".rgb" →
               has_resolution ascii_decimal (stem (in_workdir Examples.imager r)))
    as Hres by (intros r Hr _; by apply two_raw_have_resolution).
  pose proof (capture_delivers ascii_decimal 0 true thermal_raw Examples.ffmpeg_ok
                Examples.imager ffmpeg_ok_writes_only_output
                ffmpeg_ok_success_writes_output ffmpeg_ok_always_succeeds
                s (take 3 Examples.three_frames) [Line (Examples.frame_line 4)]
                (Line (Examples.frame_line 3)) Examples.raw2
                eq_refl eq_refl Hpre Hev Hnd Hres eq_refl) as (H1 & H2 & H3 & _).
  split; [exact ffmpeg_ok_writes_only_output|].
  split; [exact ffmpeg_ok_success_writes_output|].
  split; [exact ffmpeg_ok_always_succeeds|].
  split; [reflexivity|]. split; [exact Hpre|]. split; [exact Hev|].
  split; [exact Hnd|]. split; [reflexivity|].
  split; [exact H1|]. split; [exact H2|exact H3].
Defined.

End ImagerMore.
